(** * Besser Pinned Tabs (Firefox): the background script, embedded and verified

    The background script keeps a registry of pinned tabs ([pinnedTabs]),
    mirrors it to [browser.storage.local], and intercepts navigations in
    pinned tabs ([browser.webNavigation.onBeforeNavigate]) to divert them
    into a new tab.

    Embedding:
    - the module-level variables of the script ([debugMode], [linkBehavior],
      [pinnedTabs], [navigationLocks], [lastNavigationAttempts]) and the
      extension's storage area form one record [Ext]; the functions of the
      script are computations in a state monad over it;
    - a JavaScript [Map] is an association list in insertion order
      ([Array.from(map.entries())] is that list);
    - an [async] listener is cut at its [await]s: the code between two
      [await]s is one atomic segment, and what the host answers to an
      awaited call is an input of the next segment;
    - the host's [URL] constructor is not part of the script: the functions
      that call it take it as a parameter ([URL_new]); [URL_parse] is a
      model of it on which concrete URLs are evaluated. *)

From Stdlib Require Import List String Ascii ZArith Bool Lia Arith.
From Stdlib Require Import DecimalString DecimalZ.
Import ListNotations.
Local Open Scope string_scope.
Local Open Scope Z_scope.

Set Implicit Arguments.

(* ------------------------------------------------------------------ *)
(** ** JavaScript [Map] *)

Module JSMap.
Section Def.
Variables K V : Type.
Variable eqb : K -> K -> bool.

Definition t := list (K * V).

Definition empty : t := [].

Fixpoint get (k : K) (m : t) : option V :=
  match m with
  | [] => None
  | (k', v) :: r => if eqb k k' then Some v else get k r
  end.

Definition has (k : K) (m : t) : bool :=
  match get k m with Some _ => true | None => false end.

(** [set] on a key already present replaces the value where the key
    stands; a new key goes to the end. *)
Fixpoint set (k : K) (v : V) (m : t) : t :=
  match m with
  | [] => [(k, v)]
  | (k', v') :: r => if eqb k k' then (k, v) :: r else (k', v') :: set k v r
  end.

Definition delete (k : K) (m : t) : t :=
  filter (fun kv => negb (eqb k (fst kv))) m.

Definition clear (m : t) : t := [].

Definition entries (m : t) : list (K * V) := m.
End Def.
Arguments empty {K V}.
End JSMap.

(* ------------------------------------------------------------------ *)
(** ** Strings: [split('.')], [slice(-2)], [join('.')] *)

Definition dot : ascii := "."%char.

(** [s.split('.')]: never empty; the empty string gives one empty part. *)
Fixpoint split_dot (s : string) : list string :=
  match s with
  | EmptyString => [EmptyString]
  | String c r =>
      if Ascii.eqb c dot then EmptyString :: split_dot r
      else match split_dot r with
           | [] => [String c EmptyString]
           | p :: ps => String c p :: ps
           end
  end.

(** [parts.join('.')] *)
Fixpoint join_dot (parts : list string) : string :=
  match parts with
  | [] => EmptyString
  | [p] => p
  | p :: ps => p ++ String dot (join_dot ps)
  end.

(** [parts.slice(-n)]: the last [n] elements, all of them when there are
    fewer. *)
Definition slice_last (A : Type) (n : nat) (parts : list A) : list A :=
  skipn (List.length parts - n) parts.

(* ------------------------------------------------------------------ *)
(** ** URLs *)

(** The two fields of a parsed [URL] object the script reads. *)
Record URL := mkURL { protocol : string; hostname : string }.

(** [getBaseDomain], the arrow function inside [isDifferentDomain]. *)
Definition getBaseDomain (hostname : string) : string :=
  let parts := split_dot hostname in
  if (2 <? List.length parts)%nat then join_dot (slice_last 2 parts) else hostname.

(** The glossary's registrable domain, in the spec's words: the last two
    dot-separated labels of a hostname. *)
Definition registrableDomain (hostname : string) : string :=
  join_dot (slice_last 2 (split_dot hostname)).

(** The protocols [isDifferentDomain] answers [true] for at once. *)
Definition privileged (u : URL) : bool :=
  ((protocol u =? "about:") || (protocol u =? "chrome:")
   || (protocol u =? "moz-extension:"))%string.

(* ------------------------------------------------------------------ *)
(** ** The extension's state *)

Record Tab := mkTab { id : Z; url : string; pinned : bool; index : Z }.

Record Attempt := mkAttempt { timestamp : Z; originalUrl : string }.

(** The extension's area of [browser.storage.local].  A debug-log entry is
    kept as its message (its timestamp and data are not read by the
    script). *)
Record Storage := mkStorage {
  stored_debugMode : option bool;
  stored_linkBehavior : option string;
  pinnedUrls : list (Z * string);
  debugLogs : list string
}.

Record Ext := mkExt {
  debugMode : bool;
  linkBehavior : string;
  pinnedTabs : JSMap.t Z string;
  navigationLocks : JSMap.t string bool;
  lastNavigationAttempts : JSMap.t Z Attempt;
  storage : Storage
}.

Definition set_debugMode (b : bool) (e : Ext) : Ext :=
  mkExt b (linkBehavior e) (pinnedTabs e) (navigationLocks e)
        (lastNavigationAttempts e) (storage e).
Definition set_linkBehavior (l : string) (e : Ext) : Ext :=
  mkExt (debugMode e) l (pinnedTabs e) (navigationLocks e)
        (lastNavigationAttempts e) (storage e).
Definition set_pinnedTabs (m : JSMap.t Z string) (e : Ext) : Ext :=
  mkExt (debugMode e) (linkBehavior e) m (navigationLocks e)
        (lastNavigationAttempts e) (storage e).
Definition set_navigationLocks (m : JSMap.t string bool) (e : Ext) : Ext :=
  mkExt (debugMode e) (linkBehavior e) (pinnedTabs e) m
        (lastNavigationAttempts e) (storage e).
Definition set_lastNavigationAttempts (m : JSMap.t Z Attempt) (e : Ext) : Ext :=
  mkExt (debugMode e) (linkBehavior e) (pinnedTabs e) (navigationLocks e)
        m (storage e).
Definition set_storage (s : Storage) (e : Ext) : Ext :=
  mkExt (debugMode e) (linkBehavior e) (pinnedTabs e) (navigationLocks e)
        (lastNavigationAttempts e) s.

Definition store_pinnedUrls (l : list (Z * string)) (s : Storage) : Storage :=
  mkStorage (stored_debugMode s) (stored_linkBehavior s) l (debugLogs s).
Definition store_debugLogs (l : list string) (s : Storage) : Storage :=
  mkStorage (stored_debugMode s) (stored_linkBehavior s) (pinnedUrls s) l.

(** The state at load time: the initial values of the module-level
    variables. *)
Definition initialExt (s : Storage) : Ext :=
  mkExt false "different-domains" JSMap.empty JSMap.empty JSMap.empty s.

(* ------------------------------------------------------------------ *)
(** ** The state monad of the script *)

Definition M (A : Type) : Type := Ext -> A * Ext.

Definition ret (A : Type) (a : A) : M A := fun e => (a, e).

Definition bind (A B : Type) (m : M A) (k : A -> M B) : M B :=
  fun e => let (a, e') := m e in k a e'.

Definition gets (A : Type) (f : Ext -> A) : M A := fun e => (f e, e).

Definition modify (f : Ext -> Ext) : M unit := fun e => (tt, f e).

Definition when (b : bool) (m : M unit) : M unit := if b then m else ret tt.

Declare Scope ext_scope.
Delimit Scope ext_scope with ext.
Notation "x <- m ;; k" := (bind m (fun x => k))
  (at level 61, m at next level, right associativity) : ext_scope.
Notation "m ;; k" := (bind m (fun _ => k))
  (at level 61, right associativity) : ext_scope.
Local Open Scope ext_scope.

(** The state a computation ends in, and the value it returns. *)
Definition exec (A : Type) (m : M A) (e : Ext) : Ext := snd (m e).
Definition eval (A : Type) (m : M A) (e : Ext) : A := fst (m e).

(* ------------------------------------------------------------------ *)
(** ** [debugLog], [isDifferentDomain], [shouldOpenInNewTab] *)

(** [debugLog(message, data)]: with debug mode on, one entry is appended to
    the stored log; with debug mode off, nothing happens.  The write is
    taken to land when [debugLog] is called. *)
Definition debugLog (message : string) : M unit :=
  dm <- gets debugMode ;;
  when dm
    (modify (fun e =>
       set_storage (store_debugLogs (debugLogs (storage e) ++ [message])
                                    (storage e)) e)).

Section Decision.
(** [new URL(s)]: [None] when the constructor throws. *)
Variable URL_new : string -> option URL.

Definition isDifferentDomain (url1 url2 : string) : M bool :=
  match URL_new url1, URL_new url2 with
  | Some domain1, Some domain2 =>
      if ((protocol domain1 =? "about:") || (protocol domain2 =? "about:")
          || (protocol domain1 =? "chrome:") || (protocol domain2 =? "chrome:")
          || (protocol domain1 =? "moz-extension:")
          || (protocol domain2 =? "moz-extension:"))%string
      then ret true
      else ret (negb (getBaseDomain (hostname domain1)
                      =? getBaseDomain (hostname domain2))%string)
  | _, _ =>
      debugLog "URL parsing error:" ;;
      ret true
  end.

Definition shouldOpenInNewTab (currentUrl newUrl : string) : M bool :=
  if (currentUrl =? newUrl)%string then ret false
  else
    lb <- gets linkBehavior ;;
    if (lb =? "all-links")%string then ret true
    else isDifferentDomain currentUrl newUrl.
End Decision.

(* ------------------------------------------------------------------ *)
(** ** Persistence and settings *)

(** A JavaScript string is truthy when it is not empty. *)
Definition truthy (s : string) : bool := negb (s =? "")%string.

(** [x || d] for a stored boolean that may be missing. *)
Definition bool_or (x : option bool) (d : bool) : bool :=
  match x with Some true => true | _ => d end.

(** [x || d] for a stored string that may be missing. *)
Definition string_or (x : option string) (d : string) : string :=
  match x with Some s => if truthy s then s else d | None => d end.

Definition savePinnedTabs : M unit :=
  pinnedUrls <- gets (fun e => JSMap.entries (pinnedTabs e)) ;;
  modify (fun e => set_storage (store_pinnedUrls pinnedUrls (storage e)) e) ;;
  debugLog "Saved pinned tabs to storage:".

(** The settings load at the top of the script. *)
Definition loadSettings : M unit :=
  result <- gets storage ;;
  modify (set_debugMode (bool_or (stored_debugMode result) false)) ;;
  modify (set_linkBehavior
            (string_or (stored_linkBehavior result) "different-domains")) ;;
  debugLog "Extension initialized".

(** [changes] of [browser.storage.onChanged]: the new value of each changed
    key. *)
Record Changes := mkChanges {
  ch_debugMode : option bool;
  ch_linkBehavior : option string
}.

Definition onStorageChanged (changes : Changes) (area : string) : M unit :=
  when (area =? "local")%string
    ((match ch_debugMode changes with
      | Some newValue =>
          modify (set_debugMode newValue) ;;
          debugLog "Debug mode changed:"
      | None => ret tt
      end) ;;
     (match ch_linkBehavior changes with
      | Some newValue =>
          modify (set_linkBehavior newValue) ;;
          debugLog "Link behavior changed:"
      | None => ret tt
      end)).

(* ------------------------------------------------------------------ *)
(** ** The registry handlers *)

(** [for (const x of l) body(x)] *)
Fixpoint for_of (A : Type) (l : list A) (body : A -> M unit) : M unit :=
  match l with
  | [] => ret tt
  | x :: r => body x ;; for_of r body
  end.

(** [initializeExtension].  [pinnedTabsList] is what
    [browser.tabs.query({pinned: true})] settles with: [None] when the
    promise is rejected, which the [catch] of the function logs. *)
Definition initializeExtension (pinnedTabsList : option (list Tab)) : M unit :=
  debugLog "Starting extension initialization" ;;
  result <- gets storage ;;
  modify (set_debugMode (bool_or (stored_debugMode result) false)) ;;
  modify (set_linkBehavior
            (string_or (stored_linkBehavior result) "different-domains")) ;;
  debugLog "Settings loaded:" ;;
  match pinnedTabsList with
  | Some pinnedTabsList =>
      debugLog "Found pinned tabs:" ;;
      modify (fun e => set_pinnedTabs (JSMap.clear (pinnedTabs e)) e) ;;
      for_of pinnedTabsList (fun tab =>
        when (truthy (url tab) && negb (url tab =? "about:blank")%string)
          (modify (fun e =>
             set_pinnedTabs (JSMap.set Z.eqb (id tab) (url tab) (pinnedTabs e)) e))) ;;
      savePinnedTabs ;;
      debugLog "Extension initialization complete"
  | None => debugLog "Error during initialization:"
  end.

(** [initializeExtension] cut at the [await] of [browser.tabs.query]: what
    runs before the query is sent, and what runs once it has settled. *)
Definition initializeExtension_load : M unit :=
  debugLog "Starting extension initialization" ;;
  result <- gets storage ;;
  modify (set_debugMode (bool_or (stored_debugMode result) false)) ;;
  modify (set_linkBehavior
            (string_or (stored_linkBehavior result) "different-domains")) ;;
  debugLog "Settings loaded:".

Definition initializeExtension_rebuild (pinnedTabsList : option (list Tab))
  : M unit :=
  match pinnedTabsList with
  | Some pinnedTabsList =>
      debugLog "Found pinned tabs:" ;;
      modify (fun e => set_pinnedTabs (JSMap.clear (pinnedTabs e)) e) ;;
      for_of pinnedTabsList (fun tab =>
        when (truthy (url tab) && negb (url tab =? "about:blank")%string)
          (modify (fun e =>
             set_pinnedTabs (JSMap.set Z.eqb (id tab) (url tab) (pinnedTabs e)) e))) ;;
      savePinnedTabs ;;
      debugLog "Extension initialization complete"
  | None => debugLog "Error during initialization:"
  end.

(** [changeInfo] of [browser.tabs.onUpdated]: the fields that changed. *)
Record ChangeInfo := mkChangeInfo {
  ci_pinned : option bool;
  ci_url : option string
}.

(** A [changeInfo.url] that is present and not empty. *)
Definition truthy_opt (x : option string) : bool :=
  match x with Some s => truthy s | None => false end.

(** The [browser.tabs.onUpdated] listener. *)
Definition onUpdated (tabId : Z) (changeInfo : ChangeInfo) (tab : Tab) : M unit :=
  (match ci_pinned changeInfo with
   | Some changed_pinned =>
       (if changed_pinned && negb (url tab =? "about:blank")%string
        then modify (fun e =>
               set_pinnedTabs (JSMap.set Z.eqb tabId (url tab) (pinnedTabs e)) e)
        else modify (fun e =>
               set_pinnedTabs (JSMap.delete Z.eqb tabId (pinnedTabs e)) e)) ;;
       savePinnedTabs ;;
       debugLog "Tab pin status changed:"
   | None => ret tt
   end) ;;
  when (truthy_opt (ci_url changeInfo) && pinned tab
        && negb (url tab =? "about:blank")%string)
    (modify (fun e =>
       set_pinnedTabs (JSMap.set Z.eqb tabId (url tab) (pinnedTabs e)) e) ;;
     savePinnedTabs ;;
     debugLog "Pinned tab URL updated:").

(** The template literal [`nav_${tabId}`]. *)
Definition lockKey (tabId : Z) : string :=
  "nav_" ++ NilEmpty.string_of_int (Z.to_int tabId).

(** The [browser.tabs.onRemoved] listener. *)
Definition onRemoved (tabId : Z) : M unit :=
  registered <- gets (fun e => JSMap.has Z.eqb tabId (pinnedTabs e)) ;;
  when registered
    (modify (fun e =>
       set_pinnedTabs (JSMap.delete Z.eqb tabId (pinnedTabs e)) e) ;;
     modify (fun e =>
       set_lastNavigationAttempts
         (JSMap.delete Z.eqb tabId (lastNavigationAttempts e)) e) ;;
     modify (fun e =>
       set_navigationLocks
         (JSMap.delete String.eqb (lockKey tabId) (navigationLocks e)) e) ;;
     savePinnedTabs ;;
     debugLog "Removed closed tab from pinnedTabs:").

(* ------------------------------------------------------------------ *)
(** ** The navigation interceptor *)

(** [details] of [browser.webNavigation.onBeforeNavigate]. *)
Record Details := mkDetails { d_tabId : Z; d_url : string; d_frameId : Z }.

(** Where a suspended invocation of the listener waits, with the local
    variables the rest of the body reads. *)
Inductive Pc :=
| AwaitGet                                         (* browser.tabs.get *)
| AwaitCreate (tab : Tab) (currentUrl : string)    (* browser.tabs.create *)
| AwaitSettle (currentUrl : string)                (* setTimeout 100 *)
| AwaitUpdate (currentUrl : string)                (* browser.tabs.update *)
| AwaitBackoff (currentUrl : string)               (* setTimeout 50 *)
| AwaitRetry (currentUrl : string).                (* browser.tabs.update *)

Record Proc := mkProc { details : Details; pc : Pc }.

(** The call an invocation is suspended on. *)
Inductive Request :=
| TabsGet (tabId : Z)
| TabsCreate (new_url : string) (new_index : Z)
| SetTimeout (ms : Z)
| TabsUpdate (tabId : Z) (to_url : string) (loadReplace : bool).

Definition awaited (p : Proc) : Request :=
  match pc p with
  | AwaitGet => TabsGet (d_tabId (details p))
  | AwaitCreate tab _ => TabsCreate (d_url (details p)) (index tab + 1)
  | AwaitSettle _ => SetTimeout 100
  | AwaitUpdate currentUrl => TabsUpdate (d_tabId (details p)) currentUrl true
  | AwaitBackoff _ => SetTimeout 50
  | AwaitRetry currentUrl => TabsUpdate (d_tabId (details p)) currentUrl true
  end.

(** How the host settles an awaited promise: fulfilled with a tab (a timer,
    or a call that gives no tab, fulfils with [None]), or rejected. *)
Inductive Response :=
| Resolved (tab : option Tab)
| Rejected.

(** The [finally] block. *)
Definition release (details : Details) : M unit :=
  modify (fun e =>
    set_navigationLocks
      (JSMap.delete String.eqb (lockKey (d_tabId details)) (navigationLocks e)) e).

(** The [catch] block followed by [finally]. *)
Definition fail (details : Details) : M (option Proc) :=
  debugLog "Error handling navigation:" ;;
  release details ;;
  ret None.

(** A [return] inside [try], or the end of [try]: [finally] runs. *)
Definition leave (details : Details) : M (option Proc) :=
  release details ;;
  ret None.

(** The two closing [debugLog] calls, then [finally]. *)
Definition complete (details : Details) : M (option Proc) :=
  debugLog "Pinned tab restored:" ;;
  debugLog "Navigation handled in pinned tab:" ;;
  leave details.

Definition is_echo (lastAttempt : option Attempt) (now : Z) (newUrl : string) : bool :=
  match lastAttempt with
  | Some a => (now - timestamp a <? 1000) && (newUrl =? originalUrl a)%string
  | None => false
  end.

Section Interceptor.
Variable URL_new : string -> option URL.

(** The listener from its entry to its first [await].  [None]: the
    invocation is over; [Some p]: it is suspended as [p]. *)
Definition onBeforeNavigate (details : Details) : M (option Proc) :=
  let lockKey := lockKey (d_tabId details) in
  held <- gets (fun e => JSMap.get String.eqb lockKey (navigationLocks e)) ;;
  match held with
  | Some true =>
      debugLog "Navigation already in progress, skipping:" ;;
      ret None
  | _ =>
      modify (fun e =>
        set_navigationLocks
          (JSMap.set String.eqb lockKey true (navigationLocks e)) e) ;;
      registered <- gets (fun e => JSMap.has Z.eqb (d_tabId details) (pinnedTabs e)) ;;
      if negb (d_frameId details =? 0) || negb registered
      then leave details
      else ret (Some (mkProc details AwaitGet))
  end.

(** The listener from an [await] to the next.  [r] is what the awaited
    promise settled with and [now] what [Date.now()] reads in this
    segment. *)
Definition resume (p : Proc) (r : Response) (now : Z) : M (option Proc) :=
  let details := details p in
  match r with
  | Rejected => fail details
  | Resolved v =>
      match pc p with
      | AwaitGet =>
          match v with
          | None => leave details
          | Some tab =>
              if negb (pinned tab) || negb (truthy (url tab))
              then leave details
              else
                stored <- gets (fun e =>
                  JSMap.get Z.eqb (d_tabId details) (pinnedTabs e)) ;;
                let currentUrl := string_or stored (url tab) in
                let newUrl := d_url details in
                lastAttempt <- gets (fun e =>
                  JSMap.get Z.eqb (d_tabId details) (lastNavigationAttempts e)) ;;
                if is_echo lastAttempt now newUrl
                then
                  debugLog "Allowing redirect back to original URL:" ;;
                  leave details
                else
                  divert <- shouldOpenInNewTab URL_new currentUrl newUrl ;;
                  if negb divert then leave details
                  else
                    debugLog "Starting navigation handling:" ;;
                    modify (fun e =>
                      set_lastNavigationAttempts
                        (JSMap.set Z.eqb (d_tabId details)
                           (mkAttempt now currentUrl)
                           (lastNavigationAttempts e)) e) ;;
                    ret (Some (mkProc details (AwaitCreate tab currentUrl)))
          end
      | AwaitCreate tab currentUrl =>
          match v with
          | None => fail details
          | Some newTab =>
              debugLog "New tab created:" ;;
              ret (Some (mkProc details (AwaitSettle currentUrl)))
          end
      | AwaitSettle currentUrl =>
          ret (Some (mkProc details (AwaitUpdate currentUrl)))
      | AwaitUpdate currentUrl =>
          match v with
          | None => fail details
          | Some updatedTab =>
              if negb (url updatedTab =? currentUrl)%string
              then ret (Some (mkProc details (AwaitBackoff currentUrl)))
              else complete details
          end
      | AwaitBackoff currentUrl =>
          ret (Some (mkProc details (AwaitRetry currentUrl)))
      | AwaitRetry currentUrl =>
          match v with
          | None => fail details
          | Some updatedTab => complete details
          end
      end
  end.

(** One invocation run against a script of host answers: the calls it
    made and whether it is still suspended. *)
Fixpoint run (p : option Proc) (script : list (Response * Z))
  : M (list Request * option Proc) :=
  match p with
  | None => ret ([], None)
  | Some p =>
      match script with
      | [] => ret ([awaited p], Some p)
      | (r, now) :: script' =>
          p' <- resume p r now ;;
          rest <- run p' script' ;;
          ret (awaited p :: fst rest, snd rest)
      end
  end.

Definition intercept (details : Details) (script : list (Response * Z))
  : M (list Request * option Proc) :=
  p <- onBeforeNavigate details ;;
  run p script.
End Interceptor.

(** The awaits an invocation still has before it. *)
Definition remaining (p : Proc) : nat :=
  match pc p with
  | AwaitGet => 6
  | AwaitCreate _ _ => 5
  | AwaitSettle _ => 4
  | AwaitUpdate _ => 3
  | AwaitBackoff _ => 2
  | AwaitRetry _ => 1
  end.

(** A call that diverts: a new tab, or a forced reload of the pinned tab. *)
Definition is_diversion (q : Request) : bool :=
  match q with
  | TabsCreate _ _ | TabsUpdate _ _ _ => true
  | _ => false
  end.

(* ------------------------------------------------------------------ *)
(** ** The host's tabs and the events it delivers *)

(** The host's tabs, in tab-strip order. *)
Definition Host := list Tab.

(** [browser.tabs.query({pinned: true})] *)
Definition tabs_query_pinned (host : Host) : list Tab := filter pinned host.

(** [browser.tabs.get(tabId)] *)
Definition tabs_get (host : Host) (tabId : Z) : option Tab :=
  find (fun t => id t =? tabId) host.

(** The tab after the change an [onUpdated] event reports. *)
Definition apply_change (changeInfo : ChangeInfo) (t : Tab) : Tab :=
  mkTab (id t)
        (match ci_url changeInfo with Some u => u | None => url t end)
        (match ci_pinned changeInfo with Some b => b | None => pinned t end)
        (index t).

Definition host_update (tabId : Z) (changeInfo : ChangeInfo) (host : Host) : Host :=
  map (fun t => if id t =? tabId then apply_change changeInfo t else t) host.

Definition host_remove (tabId : Z) (host : Host) : Host :=
  filter (fun t => negb (id t =? tabId)) host.

(** What happens to the tabs, each with the listener the host then calls:
    a tab changes its pin state or URL ([onUpdated], with the tab as it is
    after the change), a tab closes ([onRemoved]), the extension starts
    ([initializeExtension], whose tab query the host answers or rejects),
    a tab opens (the script has no listener for that).

    [world_step] runs the listener to its end on the tabs the host has at
    that moment: nothing else happens at the listener's [await]s. *)
Inductive HostEvent :=
| TabUpdated (tabId : Z) (changeInfo : ChangeInfo)
| TabRemoved (tabId : Z)
| ExtensionStarted
| ExtensionStartRejected
| TabCreated (tab : Tab).

Definition world_step (ev : HostEvent) (w : Host * Ext) : Host * Ext :=
  let (host, e) := w in
  match ev with
  | TabUpdated tabId changeInfo =>
      let host' := host_update tabId changeInfo host in
      match tabs_get host' tabId with
      | Some tab => (host', exec (onUpdated tabId changeInfo tab) e)
      | None => w
      end
  | TabRemoved tabId => (host_remove tabId host, exec (onRemoved tabId) e)
  | ExtensionStarted =>
      (host, exec (initializeExtension (Some (tabs_query_pinned host))) e)
  | ExtensionStartRejected => (host, exec (initializeExtension None) e)
  | TabCreated tab => ((host ++ [tab])%list, e)
  end.

(** The host reports tab [tabId] as pinned. *)
Definition reports_pinned (host : Host) (tabId : Z) : Prop :=
  exists t, In t host /\ id t = tabId /\ pinned t = true.

(** The host reports tab [tabId] as pinned with a non-blank URL: one that
    [initializeExtension] keeps. *)
Definition reports_pinned_nonblank (host : Host) (tabId : Z) : Prop :=
  exists t, In t host /\ id t = tabId /\ pinned t = true
            /\ url t <> "" /\ url t <> "about:blank".

Definition registered (e : Ext) (tabId : Z) : Prop :=
  JSMap.has Z.eqb tabId (pinnedTabs e) = true.

(** The invariant of the spec. *)
Definition consistent (host : Host) (e : Ext) : Prop :=
  forall tabId, registered e tabId <-> reports_pinned_nonblank host tabId.

(** What every handler keeps. *)
Definition weakly_consistent (host : Host) (e : Ext) : Prop :=
  forall tabId,
    (reports_pinned_nonblank host tabId -> registered e tabId)
    /\ (registered e tabId -> reports_pinned host tabId).

(** Tab ids are unique. *)
Definition well_formed (host : Host) : Prop := NoDup (map id host).

(** The persisted snapshot mirrors the registry. *)
Definition persisted (e : Ext) : Prop :=
  pinnedUrls (storage e) = JSMap.entries (pinnedTabs e).

(* ------------------------------------------------------------------ *)
(** ** Interleaved listeners *)

(** The extension with the invocations of the interceptor that are
    suspended, and the tabs the host has closed. *)
Record Sys := mkSys { ext : Ext; inflight : list Proc; closed : list Z }.

Inductive Event :=
| Navigate (details : Details)
| Answer (n : nat) (r : Response) (now : Z)
| Updated (tabId : Z) (changeInfo : ChangeInfo) (tab : Tab)
| Removed (tabId : Z)
| Startup (pinnedTabsList : option (list Tab))
| SettingsLoaded
| StorageChanged (changes : Changes) (area : string).

Fixpoint replace_nth (A : Type) (n : nat) (x : option A) (l : list A) : list A :=
  match l, n with
  | [], _ => []
  | _ :: r, O => match x with Some y => y :: r | None => r end
  | a :: r, S n' => a :: replace_nth n' x r
  end.

Section System.
Variable URL_new : string -> option URL.

(** One listener segment runs to its next [await]. *)
Definition sys_step (ev : Event) (s : Sys) : Sys :=
  match ev with
  | Navigate details =>
      let (p, e') := onBeforeNavigate details (ext s) in
      mkSys e' (inflight s ++ match p with Some p => [p] | None => [] end)
            (closed s)
  | Answer n r now =>
      match nth_error (inflight s) n with
      | Some p =>
          let (p', e') := resume URL_new p r now (ext s) in
          mkSys e' (replace_nth n p' (inflight s)) (closed s)
      | None => s
      end
  | Updated tabId changeInfo tab =>
      mkSys (exec (onUpdated tabId changeInfo tab) (ext s)) (inflight s) (closed s)
  | Removed tabId =>
      mkSys (exec (onRemoved tabId) (ext s)) (inflight s) (tabId :: closed s)
  | Startup l =>
      mkSys (exec (initializeExtension l) (ext s)) (inflight s) (closed s)
  | SettingsLoaded =>
      mkSys (exec loadSettings (ext s)) (inflight s) (closed s)
  | StorageChanged changes area =>
      mkSys (exec (onStorageChanged changes area) (ext s)) (inflight s) (closed s)
  end.

(** The host sends no navigation event for a tab it has closed. *)
Definition admissible (ev : Event) (s : Sys) : Prop :=
  match ev with
  | Navigate details => ~ In (d_tabId details) (closed s)
  | _ => True
  end.

Inductive reachable : Sys -> Prop :=
| reachable_init (st : Storage) : reachable (mkSys (initialExt st) [] [])
| reachable_step s ev :
    reachable s -> admissible ev s -> reachable (sys_step ev s).
End System.

(** The lock of tab [tabId] is held. *)
Definition locked (e : Ext) (tabId : Z) : Prop :=
  JSMap.get String.eqb (lockKey tabId) (navigationLocks e) = Some true.

(** [e'] differs from [e] in the debug log at most. *)
Definition same_but_log (e e' : Ext) : Prop :=
  debugMode e' = debugMode e /\ linkBehavior e' = linkBehavior e
  /\ pinnedTabs e' = pinnedTabs e /\ navigationLocks e' = navigationLocks e
  /\ lastNavigationAttempts e' = lastNavigationAttempts e
  /\ stored_debugMode (storage e') = stored_debugMode (storage e)
  /\ stored_linkBehavior (storage e') = stored_linkBehavior (storage e)
  /\ pinnedUrls (storage e') = pinnedUrls (storage e).

(** At most one suspended invocation per tab, and each one of an open tab
    holds the lock of its tab. *)
Definition exclusive (s : Sys) : Prop :=
  NoDup (map (fun p => d_tabId (details p)) (inflight s))
  /\ forall p, In p (inflight s) ->
       ~ In (d_tabId (details p)) (closed s) ->
       locked (ext s) (d_tabId (details p)).

(** The lock of tab [tabId] is not held. *)
Definition unlocked (e : Ext) (tabId : Z) : Prop :=
  JSMap.get String.eqb (lockKey tabId) (navigationLocks e) = None.

(* ------------------------------------------------------------------ *)
(** ** A model of the host's [URL] constructor

    [URL_parse] follows the URL Standard on absolute URLs of the shape
    [scheme ":" rest]: the scheme is lower-cased; for a special scheme
    ([http], [https], [ftp], [ws], [wss]) the slashes after the colon are
    skipped and a host is required; any other scheme has a host only after
    two slashes.  Credentials and port are cut off the host, which is
    lower-cased.  A string with no scheme has no base to resolve against:
    the constructor throws.  Percent-decoding, IDNA and IPv4 forms are not
    modelled. *)

Definition in_range (lo hi : nat) (c : ascii) : bool :=
  ((lo <=? nat_of_ascii c) && (nat_of_ascii c <=? hi))%nat.

Definition is_alpha (c : ascii) : bool := in_range 65 90 c || in_range 97 122 c.

Definition is_scheme_char (c : ascii) : bool :=
  is_alpha c || in_range 48 57 c
  || Ascii.eqb c "+" || Ascii.eqb c "-" || Ascii.eqb c ".".

Definition lower (c : ascii) : ascii :=
  if in_range 65 90 c then ascii_of_nat (nat_of_ascii c + 32) else c.

Fixpoint lowercase (s : string) : string :=
  match s with
  | EmptyString => EmptyString
  | String c r => String (lower c) (lowercase r)
  end.

(** The scheme characters before the first colon, and what follows it. *)
Fixpoint take_scheme (s : string) : option (string * string) :=
  match s with
  | EmptyString => None
  | String c r =>
      if Ascii.eqb c ":" then Some (EmptyString, r)
      else if is_scheme_char c then
        match take_scheme r with
        | Some (a, b) => Some (String c a, b)
        | None => None
        end
      else None
  end.

Definition is_slash (c : ascii) : bool := Ascii.eqb c "/" || Ascii.eqb c "\".

Fixpoint skip_slashes (s : string) : string :=
  match s with
  | String c r => if is_slash c then skip_slashes r else s
  | EmptyString => EmptyString
  end.

(** Up to the end of the authority. *)
Fixpoint take_authority (special : bool) (s : string) : string :=
  match s with
  | EmptyString => EmptyString
  | String c r =>
      if Ascii.eqb c "/" || Ascii.eqb c "?" || Ascii.eqb c "#"
         || (special && Ascii.eqb c "\")
      then EmptyString
      else String c (take_authority special r)
  end.

(** What follows the last [@], the whole string when there is none. *)
Fixpoint after_credentials (s : string) : string :=
  match s with
  | EmptyString => EmptyString
  | String c r =>
      if existsb (Ascii.eqb "@") (list_ascii_of_string r)
      then after_credentials r
      else if Ascii.eqb c "@" then r else s
  end.

Fixpoint before_port (s : string) : string :=
  match s with
  | EmptyString => EmptyString
  | String c r => if Ascii.eqb c ":" then EmptyString else String c (before_port r)
  end.

Definition host_of_authority (a : string) : string :=
  lowercase (before_port (after_credentials a)).

Definition is_special (scheme : string) : bool :=
  ((scheme =? "http") || (scheme =? "https") || (scheme =? "ftp")
   || (scheme =? "ws") || (scheme =? "wss"))%string.

Definition URL_parse (s : string) : option URL :=
  match s with
  | EmptyString => None
  | String c _ =>
      if is_alpha c then
        match take_scheme s with
        | None => None
        | Some (sch, rest) =>
            let scheme := lowercase sch in
            if is_special scheme then
              let h := host_of_authority (take_authority true (skip_slashes rest)) in
              if (h =? "")%string then None
              else Some (mkURL (scheme ++ ":") h)
            else
              match rest with
              | String "/" (String "/" r) =>
                  Some (mkURL (scheme ++ ":")
                              (host_of_authority (take_authority false r)))
              | _ => Some (mkURL (scheme ++ ":") "")
              end
        end
      else None
  end.

(* ------------------------------------------------------------------ *)
(** ** What the handlers compute, as functions of the registry *)

(** The test of the loop of [initializeExtension]. *)
Definition keeps (tab : Tab) : bool :=
  truthy (url tab) && negb (url tab =? "about:blank")%string.

(** The registry the loop of [initializeExtension] builds on [m]. *)
Definition registry_of (l : list Tab) (m : JSMap.t Z string) : JSMap.t Z string :=
  fold_left (fun m tab =>
               if keeps tab then JSMap.set Z.eqb (id tab) (url tab) m else m) l m.

(** The registry after the pin-state branch of [onUpdated]. *)
Definition pin_branch (tabId : Z) (changeInfo : ChangeInfo) (tab : Tab)
                      (m : JSMap.t Z string) : JSMap.t Z string :=
  match ci_pinned changeInfo with
  | Some b =>
      if b && negb (url tab =? "about:blank")%string
      then JSMap.set Z.eqb tabId (url tab) m
      else JSMap.delete Z.eqb tabId m
  | None => m
  end.

(** The registry after the URL branch of [onUpdated]. *)
Definition url_branch (tabId : Z) (changeInfo : ChangeInfo) (tab : Tab)
                      (m : JSMap.t Z string) : JSMap.t Z string :=
  if truthy_opt (ci_url changeInfo) && pinned tab
     && negb (url tab =? "about:blank")%string
  then JSMap.set Z.eqb tabId (url tab) m
  else m.

(** An update after which the registry can disagree with the host: the tab
    is pinned and its URL is empty, or its URL alone changed and is now
    [about:blank]. *)
Definition stays_blank (ev : HostEvent) (host : Host) : bool :=
  match ev with
  | TabUpdated tabId changeInfo =>
      match tabs_get (host_update tabId changeInfo host) tabId with
      | Some tab =>
          pinned tab
          && ((url tab =? "")%string
              || (match ci_pinned changeInfo with Some _ => false | None => true end
                  && (url tab =? "about:blank")%string))
      | None => false
      end
  | _ => false
  end.

(** A tab that opens has an id no other tab has. *)
Definition fresh (ev : HostEvent) (host : Host) : Prop :=
  match ev with
  | TabCreated tab => ~ In (id tab) (map id host)
  | _ => True
  end.

(** A tab that opens already pinned, on a URL [initializeExtension] would
    keep. *)
Definition opens_pinned (ev : HostEvent) : bool :=
  match ev with
  | TabCreated tab => pinned tab && keeps tab
  | _ => false
  end.

(* ------------------------------------------------------------------ *)
(** ** The settings page ([content.js]) *)

Definition store_debugMode (b : option bool) (s : Storage) : Storage :=
  mkStorage b (stored_linkBehavior s) (pinnedUrls s) (debugLogs s).
Definition store_linkBehavior (l : option string) (s : Storage) : Storage :=
  mkStorage (stored_debugMode s) l (pinnedUrls s) (debugLogs s).

(** The two radio buttons of the page. *)
Inductive Radio := differentDomainsOnly | allLinks.

(** The radio button the page checks when it loads. *)
Definition checked_radio (st : Storage) : Radio :=
  let linkBehavior := string_or (stored_linkBehavior st) "different-domains" in
  if (linkBehavior =? "different-domains")%string then differentDomainsOnly
  else allLinks.

(** The state of the debug checkbox when the page loads. *)
Definition checked_debugMode (st : Storage) : bool :=
  bool_or (stored_debugMode st) false.

(** The [change] listeners of the checkbox and of the radio buttons, and
    the [click] listener of the clear button: each is one
    [browser.storage.local.set]. *)
Definition updateDebugMode (checked : bool) (st : Storage) : Storage :=
  store_debugMode (Some checked) st.
Definition updateLinkBehavior (value : string) (st : Storage) : Storage :=
  store_linkBehavior (Some value) st.
Definition clearLogs (st : Storage) : Storage := store_debugLogs [] st.

(** A write of the page, and the [storage.onChanged] event the host then
    delivers to the background script. *)
Definition page_sets_linkBehavior (value : string) (e : Ext) : Ext :=
  exec (onStorageChanged (mkChanges None (Some value)) "local")
       (set_storage (updateLinkBehavior value (storage e)) e).
Definition page_sets_debugMode (checked : bool) (e : Ext) : Ext :=
  exec (onStorageChanged (mkChanges (Some checked) None) "local")
       (set_storage (updateDebugMode checked (storage e)) e).

(** The settings in memory are the stored ones, with their defaults. *)
Definition settings_synced (e : Ext) : Prop :=
  debugMode e = bool_or (stored_debugMode (storage e)) false
  /\ linkBehavior e
     = string_or (stored_linkBehavior (storage e)) "different-domains".

(* ------------------------------------------------------------------ *)
(** ** Measures used in the statements *)

(** A label: a string with no dot. *)
Definition no_dot (s : string) : bool :=
  forallb (fun c => negb (Ascii.eqb c dot)) (list_ascii_of_string s).

Definition is_create (q : Request) : bool :=
  match q with TabsCreate _ _ => true | _ => false end.

Definition is_update (q : Request) : bool :=
  match q with TabsUpdate _ _ _ => true | _ => false end.

(** The calls for a new tab, and the forced reloads, an invocation
    suspended as [p] can still make. *)
Definition creates_left (p : Proc) : nat :=
  match pc p with AwaitGet | AwaitCreate _ _ => 1 | _ => 0 end.

Definition updates_left (p : Proc) : nat :=
  match pc p with AwaitBackoff _ | AwaitRetry _ => 1 | _ => 2 end.

(** A call made for the navigation event [d]: about the tab of [d], a new
    tab on the target of [d], a reload that replaces the history entry,
    one of the two delays. *)
Definition addressed (d : Details) (q : Request) : Prop :=
  match q with
  | TabsGet tabId => tabId = d_tabId d
  | TabsCreate new_url _ => new_url = d_url d
  | SetTimeout ms => ms = 100 \/ ms = 50
  | TabsUpdate tabId _ loadReplace => tabId = d_tabId d /\ loadReplace = true
  end.

(* ------------------------------------------------------------------ *)
(** ** Small executions *)

Definition st0 : Storage := mkStorage None None [] [].
Definition DD : Ext := initialExt st0.
Definition AL : Ext := set_linkBehavior "all-links" DD.

(** The scenario of the spec: tab 7 is pinned on the inbox, and a link to
    the shop is clicked in it. *)
Definition inbox : string := "https://mail.example.com/inbox".
Definition item : string := "https://shop.other.com/item".
Definition tab7 : Tab := mkTab 7 inbox true 0.

Definition started : Ext := exec (initializeExtension (Some [tab7])) DD.

(** The host answers: the pinned tab, the new tab, the timer, the pinned
    tab back on its URL. *)
Definition click_script : list (Response * Z) :=
  [ (Resolved (Some tab7), 5000);
    (Resolved (Some (mkTab 8 item false 1)), 5001);
    (Resolved None, 5101);
    (Resolved (Some tab7), 5102) ].

Definition diverted : Ext :=
  exec (intercept URL_parse (mkDetails 7 item 0) click_script) started.

(** The tab is then unpinned, and closed. *)
Definition unpinned : Ext :=
  exec (onUpdated 7 (mkChangeInfo (Some false) None) (mkTab 7 inbox false 0))
       diverted.

Definition closed_after_unpin : Ext := exec (onRemoved 7) unpinned.

(** A click in tab 7 whose invocation is suspended on its first [await]. *)
Definition suspended : Ext := exec (onBeforeNavigate (mkDetails 7 item 0)) started.

Definition cart : string := "https://shop.other.com/cart".

(** Tab 7, not pinned yet, is pinned while [initializeExtension] waits for
    the answer to its tab query, which the host computed before. *)
Definition before_pin : Host := [mkTab 7 inbox false 0].

Definition pinned_meanwhile : Host * Ext :=
  world_step (TabUpdated 7 (mkChangeInfo (Some true) None))
             (before_pin, exec initializeExtension_load DD).

Definition rebuilt_late : Ext :=
  exec (initializeExtension_rebuild (Some (tabs_query_pinned before_pin)))
       (snd pinned_meanwhile).

(** After the diversion, the pinned tab has begun to load the target and
    [onUpdated] has written it into the registry. *)
Definition reloading : Ext :=
  exec (onUpdated 7 (mkChangeInfo None (Some item)) (mkTab 7 item true 0))
       diverted.

(** The clock does not go back: what a script reads is not before the
    arrival of the event. *)
Definition after_arrival (arrived : Z) (script : list (Response * Z)) : Prop :=
  forall r now, In (r, now) script -> arrived <= now.

(** The pinned tab goes to [about:blank]. *)
Definition blanked : Host * Ext :=
  world_step (TabUpdated 7 (mkChangeInfo None (Some "about:blank")))
             ([tab7], started).

Example URL_parse_https :
  URL_parse "https://a.example.com/x" = Some (mkURL "https:" "a.example.com").
Proof. reflexivity. Qed.

Example URL_parse_about :
  URL_parse "about:config" = Some (mkURL "about:" "").
Proof. reflexivity. Qed.

Example URL_parse_port :
  URL_parse "HTTP://user@Shop.Other.com:8080/item?q#f"
  = Some (mkURL "http:" "shop.other.com").
Proof. reflexivity. Qed.

Example URL_parse_relative : URL_parse "/just/a/path" = None.
Proof. reflexivity. Qed.

Example getBaseDomain_three : getBaseDomain "a.example.com" = "example.com".
Proof. reflexivity. Qed.

Example getBaseDomain_one : getBaseDomain "localhost" = "localhost".
Proof. reflexivity. Qed.

Example lockKey_7 : lockKey 7 = "nav_7".
Proof. reflexivity. Qed.

Example shouldOpenInNewTab_other_site :
  eval (shouldOpenInNewTab URL_parse "https://mail.example.com/inbox"
                           "https://shop.other.com/item") DD = true.
Proof. reflexivity. Qed.

(* ------------------------------------------------------------------ *)
(** ** Facts about [JSMap] *)

Module JSMapFacts.
Import JSMap.
Section Facts.
Variables K V : Type.
Variable eqb : K -> K -> bool.
Implicit Types (k : K) (v : V) (m : JSMap.t K V).
Local Abbreviation get := (JSMap.get eqb).
Local Abbreviation has := (JSMap.has eqb).
Local Abbreviation set := (JSMap.set eqb).
Local Abbreviation delete := (JSMap.delete eqb).
Hypothesis eqb_eq : forall a b, eqb a b = true <-> a = b.

Lemma eqb_refl k : eqb k k = true.
Proof. now apply eqb_eq. Qed.

Lemma eqb_neq a b : a <> b -> eqb a b = false.
Proof.
  intros H. destruct (eqb a b) eqn:E; [|reflexivity].
  apply eqb_eq in E. contradiction.
Qed.

Lemma get_set_same k v m : get k (set k v m) = Some v.
Proof.
  induction m as [|[k' v'] r IH]; simpl.
  - now rewrite eqb_refl.
  - destruct (eqb k k') eqn:E; simpl; rewrite ?eqb_refl, ?E; auto.
Qed.

Lemma get_set_other k k' v m : k <> k' -> get k (set k' v m) = get k m.
Proof.
  intros N. induction m as [|[k2 v2] r IH]; simpl.
  - now rewrite (eqb_neq N).
  - destruct (eqb k' k2) eqn:E; simpl.
    + apply eqb_eq in E. subst k2. now rewrite (eqb_neq N).
    + destruct (eqb k k2); auto.
Qed.

Lemma get_delete_same k m : get k (delete k m) = None.
Proof.
  induction m as [|[k' v'] r IH]; simpl; auto.
  destruct (eqb k k') eqn:E; simpl; auto. now rewrite E.
Qed.

Lemma get_delete_other k k' m : k <> k' -> get k (delete k' m) = get k m.
Proof.
  intros N. induction m as [|[k2 v2] r IH]; simpl; auto.
  destruct (eqb k' k2) eqn:E; simpl.
  - apply eqb_eq in E. subst k2. now rewrite (eqb_neq N).
  - destruct (eqb k k2); auto.
Qed.

Lemma has_set_same k v m : has k (set k v m) = true.
Proof. unfold has. now rewrite get_set_same. Qed.

Lemma has_set_other k k' v m : k <> k' -> has k (set k' v m) = has k m.
Proof. intros N. unfold has. now rewrite get_set_other. Qed.

Lemma has_delete_same k m : has k (delete k m) = false.
Proof. unfold has. now rewrite get_delete_same. Qed.

Lemma has_delete_other k k' m : k <> k' -> has k (delete k' m) = has k m.
Proof. intros N. unfold has. now rewrite get_delete_other. Qed.

Lemma get_In k m v : get k m = Some v -> In (k, v) m.
Proof.
  induction m as [|[k' v'] r IH]; simpl; [discriminate|].
  destruct (eqb k k') eqn:E.
  - apply eqb_eq in E. intros [= ->]. subst. now left.
  - intros H. right. auto.
Qed.

Lemma has_In_fst k m : has k m = true <-> In k (map fst m).
Proof.
  unfold has. induction m as [|[k' v'] r IH]; simpl.
  - split; [discriminate|tauto].
  - destruct (eqb k k') eqn:E.
    + apply eqb_eq in E. subst. split; auto.
    + rewrite IH. split; [tauto|]. intros [H|H]; auto.
      subst. rewrite eqb_refl in E. discriminate.
Qed.
End Facts.
End JSMapFacts.

(* ------------------------------------------------------------------ *)
(** ** [split], [join] and the registrable domain *)

Lemma split_dot_nonempty s : split_dot s <> [].
Proof.
  destruct s as [|c r]; simpl; [discriminate|].
  destruct (Ascii.eqb c dot); [discriminate|].
  destruct (split_dot r); discriminate.
Qed.

Lemma join_dot_cons p ps :
  ps <> [] -> join_dot (p :: ps) = (p ++ String dot (join_dot ps))%string.
Proof. destruct ps; [congruence|reflexivity]. Qed.

Lemma join_split_dot s : join_dot (split_dot s) = s.
Proof.
  induction s as [|c r IH]; [reflexivity|].
  simpl split_dot. destruct (Ascii.eqb c dot) eqn:E.
  - apply Ascii.eqb_eq in E. subst c.
    rewrite join_dot_cons by apply split_dot_nonempty.
    simpl. now rewrite IH.
  - pose proof (split_dot_nonempty r) as N.
    destruct (split_dot r) as [|p ps]; [congruence|].
    destruct ps as [|q qs].
    + simpl in *. now rewrite IH.
    + rewrite join_dot_cons by discriminate.
      rewrite join_dot_cons in IH by discriminate.
      rewrite <- IH. reflexivity.
Qed.

(** [getBaseDomain] computes the registrable domain of the glossary: with
    one or two labels the hostname is its own last two labels. *)
Lemma getBaseDomain_registrableDomain h : getBaseDomain h = registrableDomain h.
Proof.
  unfold getBaseDomain, registrableDomain, slice_last.
  destruct (2 <? List.length (split_dot h))%nat eqn:E; [reflexivity|].
  apply Nat.ltb_ge in E.
  replace (List.length (split_dot h) - 2)%nat with 0%nat by lia.
  simpl. symmetry. apply join_split_dot.
Qed.

(* ------------------------------------------------------------------ *)
(** ** [debugLog] writes the debug log only *)

Lemma debugLog_same_but_log msg e : same_but_log e (exec (debugLog msg) e).
Proof.
  unfold exec, debugLog, bind, gets, when, modify, ret, same_but_log.
  destruct (debugMode e) eqn:D; simpl; rewrite ?D; repeat split; reflexivity.
Qed.

Lemma debugLog_off msg e : debugMode e = false -> debugLog msg e = (tt, e).
Proof.
  intros D. unfold debugLog, bind, gets, when, ret. now rewrite D.
Qed.

Lemma same_but_log_refl e : same_but_log e e.
Proof. unfold same_but_log. repeat split; reflexivity. Qed.

Lemma same_but_log_trans e1 e2 e3 :
  same_but_log e1 e2 -> same_but_log e2 e3 -> same_but_log e1 e3.
Proof.
  unfold same_but_log. intros H1 H2.
  repeat match goal with H : _ /\ _ |- _ => destruct H end.
  repeat split; congruence.
Qed.

(* ------------------------------------------------------------------ *)
(** ** The decision *)

Section DecisionFacts.
Variable URL_new : string -> option URL.

Lemma isDifferentDomain_same_but_log u1 u2 e :
  same_but_log e (exec (isDifferentDomain URL_new u1 u2) e).
Proof.
  unfold exec, isDifferentDomain.
  destruct (URL_new u1) as [d1|]; [destruct (URL_new u2) as [d2|]|].
  - match goal with |- context [if ?c then _ else _] => destruct c end;
      apply same_but_log_refl.
  - unfold bind. pose proof (debugLog_same_but_log "URL parsing error:" e) as H.
    unfold exec in H. destruct (debugLog "URL parsing error:" e). exact H.
  - unfold bind. pose proof (debugLog_same_but_log "URL parsing error:" e) as H.
    unfold exec in H. destruct (debugLog "URL parsing error:" e). exact H.
Qed.

Lemma isDifferentDomain_parsed u1 u2 d1 d2 e :
  URL_new u1 = Some d1 -> URL_new u2 = Some d2 ->
  eval (isDifferentDomain URL_new u1 u2) e
  = privileged d1 || privileged d2
    || negb (getBaseDomain (hostname d1) =? getBaseDomain (hostname d2))%string.
Proof.
  intros H1 H2. unfold eval, isDifferentDomain, privileged. rewrite H1, H2.
  destruct (protocol d1 =? "about:")%string, (protocol d2 =? "about:")%string,
    (protocol d1 =? "chrome:")%string, (protocol d2 =? "chrome:")%string,
    (protocol d1 =? "moz-extension:")%string,
    (protocol d2 =? "moz-extension:")%string; reflexivity.
Qed.

Lemma isDifferentDomain_unparsed u1 u2 e :
  URL_new u1 = None \/ URL_new u2 = None ->
  eval (isDifferentDomain URL_new u1 u2) e = true.
Proof.
  unfold eval, isDifferentDomain, bind, ret.
  intros [H|H]; rewrite H.
  - destruct (debugLog "URL parsing error:" e); reflexivity.
  - destruct (URL_new u1); destruct (debugLog "URL parsing error:" e); reflexivity.
Qed.

Lemma shouldOpenInNewTab_differing cur new e :
  cur <> new ->
  eval (shouldOpenInNewTab URL_new cur new) e
  = (linkBehavior e =? "all-links")%string
    || eval (isDifferentDomain URL_new cur new) e.
Proof.
  intros N. unfold eval, shouldOpenInNewTab.
  apply String.eqb_neq in N. rewrite N.
  unfold bind, gets, ret. destruct (linkBehavior e =? "all-links")%string; reflexivity.
Qed.

Lemma shouldOpenInNewTab_same_but_log cur new e :
  same_but_log e (exec (shouldOpenInNewTab URL_new cur new) e).
Proof.
  unfold exec, shouldOpenInNewTab.
  destruct (cur =? new)%string; [apply same_but_log_refl|].
  unfold bind, gets, ret.
  destruct (linkBehavior e =? "all-links")%string; [apply same_but_log_refl|].
  apply isDifferentDomain_same_but_log.
Qed.
End DecisionFacts.

(** C6: for every URL [u] and every value of [linkBehavior],
    [shouldOpenInNewTab(u, u)] returns [false] (and changes nothing); so
    the interceptor, resumed with the pinned tab whose current URL is the
    target of the navigation, ends without asking for a new tab. *)
Theorem shouldOpenInNewTab_same_url :
  forall (URL_new : string -> option URL) (e : Ext) (u : string),
    shouldOpenInNewTab URL_new u u e = (false, e)
    /\ forall (details : Details) (tab : Tab) (now : Z),
         pinned tab = true -> truthy (url tab) = true ->
         d_url details
         = string_or (JSMap.get Z.eqb (d_tabId details) (pinnedTabs e)) (url tab) ->
         eval (resume URL_new (mkProc details AwaitGet) (Resolved (Some tab)) now) e
         = None.
Proof.
  intros URL_new e u. split.
  - unfold shouldOpenInNewTab. now rewrite String.eqb_refl.
  - intros details tab now Hp Ht Hu.
    unfold eval, resume. simpl. rewrite Hp, Ht. simpl.
    unfold bind, gets. rewrite <- Hu.
    destruct (is_echo _ now (d_url details)).
    + destruct (debugLog _ e). reflexivity.
    + unfold shouldOpenInNewTab. rewrite String.eqb_refl. reflexivity.
Qed.

Lemma shouldOpenInNewTab_same_url_witness :
  eval (resume URL_parse
          (mkProc (mkDetails 7 "https://mail.example.com/inbox" 0) AwaitGet)
          (Resolved (Some (mkTab 7 "https://mail.example.com/inbox" true 0))) 5000)
       (set_pinnedTabs [(7, "https://mail.example.com/inbox")] AL)
  = None.
Proof.
  apply (proj2 (shouldOpenInNewTab_same_url URL_parse
                  (set_pinnedTabs [(7, "https://mail.example.com/inbox")] AL)
                  "https://mail.example.com/inbox"));
    reflexivity.
Defined.

(** C7: with [linkBehavior = 'all-links'], [shouldOpenInNewTab] returns
    [true] for every two URLs that differ, whatever their domains and
    whether or not they parse. *)
Theorem shouldOpenInNewTab_all_links :
  forall (URL_new : string -> option URL) (e : Ext) (currentUrl newUrl : string),
    linkBehavior e = "all-links" ->
    currentUrl <> newUrl ->
    shouldOpenInNewTab URL_new currentUrl newUrl e = (true, e).
Proof.
  intros URL_new e cur new Hl N. unfold shouldOpenInNewTab.
  apply String.eqb_neq in N. rewrite N.
  unfold bind, gets. now rewrite Hl.
Qed.

Lemma shouldOpenInNewTab_all_links_witness :
  shouldOpenInNewTab URL_parse "https://a.example.com/x" "not a url" AL
  = (true, AL).
Proof.
  apply shouldOpenInNewTab_all_links; [reflexivity|].
  intros H. discriminate H.
Defined.

(** C9: when one of the two URLs does not parse, [isDifferentDomain]
    returns [true]: the exception is caught inside the function.  Under
    [linkBehavior = 'different-domains'] a navigation between two such
    differing URLs is therefore diverted. *)
Theorem isDifferentDomain_parse_failure :
  forall (URL_new : string -> option URL) (e : Ext) (url1 url2 : string),
    URL_new url1 = None \/ URL_new url2 = None ->
    eval (isDifferentDomain URL_new url1 url2) e = true
    /\ (linkBehavior e = "different-domains" -> url1 <> url2 ->
        eval (shouldOpenInNewTab URL_new url1 url2) e = true).
Proof.
  intros URL_new e u1 u2 H. split.
  - now apply isDifferentDomain_unparsed.
  - intros _ N. rewrite shouldOpenInNewTab_differing by exact N.
    rewrite isDifferentDomain_unparsed by exact H. apply orb_true_r.
Qed.

Lemma isDifferentDomain_parse_failure_witness :
  eval (isDifferentDomain URL_parse "https://a.example.com/x" "not a url") DD = true
  /\ eval (shouldOpenInNewTab URL_parse "https://a.example.com/x" "not a url") DD
     = true.
Proof.
  destruct (isDifferentDomain_parse_failure URL_parse DD
              "https://a.example.com/x" "not a url") as [H1 H2].
  - right. reflexivity.
  - split; [exact H1|]. apply H2; [reflexivity|]. intros H. discriminate H.
Defined.

(** C1, as the code has it: with [linkBehavior = 'different-domains'] and
    two differing URLs, [shouldOpenInNewTab] returns [true] iff a URL does
    not parse, or one has the protocol [about:], [chrome:] or
    [moz-extension:], or the registrable domains (the last two labels of
    the hostnames) differ.  It returns [false] from
    [https://a.example.com/x] to [https://b.example.com/y] (both are
    [example.com]) and to [https://a.example.com/y], and [true] from
    [https://mail.example.com/inbox] to [https://shop.other.com/item]. *)
Theorem shouldOpenInNewTab_different_domains :
  (forall (URL_new : string -> option URL) (e : Ext) (currentUrl newUrl : string),
     linkBehavior e = "different-domains" ->
     currentUrl <> newUrl ->
     (eval (shouldOpenInNewTab URL_new currentUrl newUrl) e = true
      <-> match URL_new currentUrl, URL_new newUrl with
          | Some domain1, Some domain2 =>
              privileged domain1 = true \/ privileged domain2 = true
              \/ registrableDomain (hostname domain1)
                 <> registrableDomain (hostname domain2)
          | _, _ => True
          end))
  /\ eval (shouldOpenInNewTab URL_parse "https://a.example.com/x"
                              "https://b.example.com/y") DD = false
  /\ eval (shouldOpenInNewTab URL_parse "https://a.example.com/x"
                              "https://a.example.com/y") DD = false
  /\ eval (shouldOpenInNewTab URL_parse "https://mail.example.com/inbox"
                              "https://shop.other.com/item") DD = true.
Proof.
  split; [|repeat split; reflexivity].
  intros URL_new e cur new Hl N.
  rewrite shouldOpenInNewTab_differing by exact N. rewrite Hl. simpl.
  destruct (URL_new cur) as [d1|] eqn:E1.
  - destruct (URL_new new) as [d2|] eqn:E2.
    + rewrite (isDifferentDomain_parsed _ _ _ e E1 E2).
      rewrite !getBaseDomain_registrableDomain.
      rewrite !orb_true_iff, negb_true_iff, String.eqb_neq. tauto.
    + rewrite isDifferentDomain_unparsed by (right; exact E2). tauto.
  - rewrite isDifferentDomain_unparsed by (left; exact E1).
    destruct (URL_new new); tauto.
Qed.

Lemma shouldOpenInNewTab_different_domains_witness :
  eval (shouldOpenInNewTab URL_parse "https://a.example.com/x"
                           "https://b.other.org/y") DD = true.
Proof.
  apply (proj1 shouldOpenInNewTab_different_domains URL_parse DD);
    [reflexivity | intros H; discriminate H |].
  simpl. right. right. intros H. discriminate H.
Defined.

(** C1 as it is written fails twice: from [https://a.example.com/x] to
    [https://b.example.com/y] the function returns [false], not [true];
    and from [about:config] to [about:preferences], whose hostnames are
    both empty and so have one registrable domain, it returns [true]. *)
Lemma shouldOpenInNewTab_different_domains_counterexample :
  linkBehavior DD = "different-domains"
  /\ eval (shouldOpenInNewTab URL_parse "https://a.example.com/x"
                              "https://b.example.com/y") DD = false
  /\ option_map (fun d => registrableDomain (hostname d)) (URL_parse "about:config")
     = option_map (fun d => registrableDomain (hostname d))
                  (URL_parse "about:preferences")
  /\ eval (shouldOpenInNewTab URL_parse "about:config" "about:preferences") DD
     = true.
Proof. repeat split; reflexivity. Qed.

(* ------------------------------------------------------------------ *)
(** ** Equations of the monad *)

Lemma exec_bind A B (m : M A) (k : A -> M B) e :
  exec (bind m k) e = exec (k (eval m e)) (exec m e).
Proof. unfold exec, eval, bind. now destruct (m e). Qed.

Lemma eval_bind A B (m : M A) (k : A -> M B) e :
  eval (bind m k) e = eval (k (eval m e)) (exec m e).
Proof. unfold exec, eval, bind. now destruct (m e). Qed.

Lemma exec_ret A (a : A) e : exec (ret a) e = e.
Proof. reflexivity. Qed.

Lemma eval_ret A (a : A) e : eval (ret a) e = a.
Proof. reflexivity. Qed.

Lemma exec_gets A (f : Ext -> A) e : exec (gets f) e = e.
Proof. reflexivity. Qed.

Lemma eval_gets A (f : Ext -> A) e : eval (gets f) e = f e.
Proof. reflexivity. Qed.

Lemma exec_modify f e : exec (modify f) e = f e.
Proof. reflexivity. Qed.

Lemma exec_when b m e : exec (when b m) e = if b then exec m e else e.
Proof. now destruct b. Qed.

Lemma run_pair A (m : M A) e : m e = (eval m e, exec m e).
Proof. unfold eval, exec. now destruct (m e). Qed.

Lemma debugLog_debugMode msg e : debugMode (exec (debugLog msg) e) = debugMode e.
Proof. apply debugLog_same_but_log. Qed.

Lemma debugLog_linkBehavior msg e :
  linkBehavior (exec (debugLog msg) e) = linkBehavior e.
Proof. apply debugLog_same_but_log. Qed.

Lemma debugLog_pinnedTabs msg e : pinnedTabs (exec (debugLog msg) e) = pinnedTabs e.
Proof. apply debugLog_same_but_log. Qed.

Lemma debugLog_navigationLocks msg e :
  navigationLocks (exec (debugLog msg) e) = navigationLocks e.
Proof. apply debugLog_same_but_log. Qed.

Lemma debugLog_lastNavigationAttempts msg e :
  lastNavigationAttempts (exec (debugLog msg) e) = lastNavigationAttempts e.
Proof. apply debugLog_same_but_log. Qed.

Lemma debugLog_pinnedUrls msg e :
  pinnedUrls (storage (exec (debugLog msg) e)) = pinnedUrls (storage e).
Proof. apply debugLog_same_but_log. Qed.

Lemma debugLog_stored_debugMode msg e :
  stored_debugMode (storage (exec (debugLog msg) e)) = stored_debugMode (storage e).
Proof. apply debugLog_same_but_log. Qed.

Lemma debugLog_stored_linkBehavior msg e :
  stored_linkBehavior (storage (exec (debugLog msg) e))
  = stored_linkBehavior (storage e).
Proof. apply debugLog_same_but_log. Qed.

Create Rewrite HintDb ext.
#[local] Hint Rewrite exec_bind eval_bind exec_ret eval_ret exec_gets eval_gets
  exec_modify exec_when : ext.
#[local] Hint Rewrite debugLog_debugMode debugLog_linkBehavior debugLog_pinnedTabs
  debugLog_navigationLocks debugLog_lastNavigationAttempts debugLog_pinnedUrls
  debugLog_stored_debugMode debugLog_stored_linkBehavior : ext.

(** Normalise a handler's run to its effect on the fields. *)
Ltac fields := repeat (autorewrite with ext; cbn [
  debugMode linkBehavior pinnedTabs navigationLocks lastNavigationAttempts storage
  stored_debugMode stored_linkBehavior pinnedUrls debugLogs
  set_debugMode set_linkBehavior set_pinnedTabs set_navigationLocks
  set_lastNavigationAttempts set_storage store_pinnedUrls store_debugLogs
  details pc d_tabId d_url d_frameId ]).

(* ------------------------------------------------------------------ *)
(** ** The registry handlers, field by field *)

Lemma set_pinnedTabs_id e : set_pinnedTabs (pinnedTabs e) e = e.
Proof. now destruct e. Qed.

Lemma savePinnedTabs_pinnedTabs e :
  pinnedTabs (exec savePinnedTabs e) = pinnedTabs e.
Proof. unfold savePinnedTabs. now fields. Qed.

Lemma savePinnedTabs_persisted e : persisted (exec savePinnedTabs e).
Proof. unfold persisted, savePinnedTabs. now fields. Qed.

Lemma for_of_registry l e :
  exec (for_of l (fun tab =>
          when (truthy (url tab) && negb (url tab =? "about:blank")%string)
            (modify (fun e =>
               set_pinnedTabs
                 (JSMap.set Z.eqb (id tab) (url tab) (pinnedTabs e)) e)))) e
  = set_pinnedTabs (registry_of l (pinnedTabs e)) e.
Proof.
  revert e. induction l as [|tab r IH]; intros e.
  - simpl. rewrite exec_ret. now rewrite set_pinnedTabs_id.
  - simpl for_of. rewrite exec_bind, IH. rewrite exec_when, exec_modify.
    unfold registry_of at 2. simpl fold_left. unfold keeps at 2.
    destruct (truthy (url tab) && negb (url tab =? "about:blank")%string);
      reflexivity.
Qed.

Lemma initializeExtension_registry l e :
  pinnedTabs (exec (initializeExtension (Some l)) e) = registry_of l []
  /\ persisted (exec (initializeExtension (Some l)) e).
Proof.
  unfold initializeExtension, persisted, savePinnedTabs. fields.
  rewrite for_of_registry. fields. split; reflexivity.
Qed.

Lemma initializeExtension_rejected e :
  pinnedTabs (exec (initializeExtension None) e) = pinnedTabs e
  /\ pinnedUrls (storage (exec (initializeExtension None) e))
     = pinnedUrls (storage e).
Proof. unfold initializeExtension. fields. split; reflexivity. Qed.

Lemma onUpdated_registry tabId changeInfo tab e :
  pinnedTabs (exec (onUpdated tabId changeInfo tab) e)
  = url_branch tabId changeInfo tab
      (pin_branch tabId changeInfo tab (pinnedTabs e)).
Proof.
  unfold onUpdated, url_branch, pin_branch, savePinnedTabs.
  destruct (ci_pinned changeInfo) as [b|];
    [destruct (b && negb (url tab =? "about:blank")%string)|];
    destruct (truthy_opt (ci_url changeInfo) && pinned tab
              && negb (url tab =? "about:blank")%string);
    fields; reflexivity.
Qed.

Lemma onUpdated_persisted tabId changeInfo tab e :
  persisted e -> persisted (exec (onUpdated tabId changeInfo tab) e).
Proof.
  unfold persisted, onUpdated, savePinnedTabs. intros P.
  destruct (ci_pinned changeInfo) as [b|];
    [destruct (b && negb (url tab =? "about:blank")%string)|];
    destruct (truthy_opt (ci_url changeInfo) && pinned tab
              && negb (url tab =? "about:blank")%string);
    fields; auto.
Qed.

Lemma onRemoved_unregistered tabId e :
  JSMap.has Z.eqb tabId (pinnedTabs e) = false -> exec (onRemoved tabId) e = e.
Proof. intros H. unfold onRemoved. fields. now rewrite H. Qed.

Lemma onRemoved_registered tabId e :
  JSMap.has Z.eqb tabId (pinnedTabs e) = true ->
  pinnedTabs (exec (onRemoved tabId) e) = JSMap.delete Z.eqb tabId (pinnedTabs e)
  /\ lastNavigationAttempts (exec (onRemoved tabId) e)
     = JSMap.delete Z.eqb tabId (lastNavigationAttempts e)
  /\ navigationLocks (exec (onRemoved tabId) e)
     = JSMap.delete String.eqb (lockKey tabId) (navigationLocks e)
  /\ persisted (exec (onRemoved tabId) e).
Proof.
  intros H. unfold onRemoved, persisted, savePinnedTabs. fields. rewrite H.
  fields. repeat split; reflexivity.
Qed.

Lemma onRemoved_pinnedTabs tabId e :
  pinnedTabs (exec (onRemoved tabId) e) = JSMap.delete Z.eqb tabId (pinnedTabs e).
Proof.
  destruct (JSMap.has Z.eqb tabId (pinnedTabs e)) eqn:H.
  - now apply onRemoved_registered.
  - rewrite onRemoved_unregistered by exact H.
    unfold JSMap.has in H. symmetry.
    induction (pinnedTabs e) as [|[k v] r IH]; [reflexivity|].
    simpl in *. destruct (tabId =? k) eqn:E; [discriminate|].
    simpl. f_equal. auto.
Qed.

(** C10: when [onUpdated] reports a tab as newly pinned and the tab's URL
    is [about:blank], the registry entry of the tab is deleted (no entry
    is left or written) and the snapshot is persisted. *)
Theorem onUpdated_pinned_blank :
  forall (tabId : Z) (changeInfo : ChangeInfo) (tab : Tab) (e : Ext),
    ci_pinned changeInfo = Some true ->
    url tab = "about:blank" ->
    pinnedTabs (exec (onUpdated tabId changeInfo tab) e)
    = JSMap.delete Z.eqb tabId (pinnedTabs e)
    /\ JSMap.get Z.eqb tabId (pinnedTabs (exec (onUpdated tabId changeInfo tab) e))
       = None
    /\ pinnedUrls (storage (exec (onUpdated tabId changeInfo tab) e))
       = JSMap.entries (JSMap.delete Z.eqb tabId (pinnedTabs e)).
Proof.
  intros tabId changeInfo tab e Hp Hu.
  assert (R : pinnedTabs (exec (onUpdated tabId changeInfo tab) e)
              = JSMap.delete Z.eqb tabId (pinnedTabs e)).
  { rewrite onUpdated_registry. unfold url_branch, pin_branch.
    rewrite Hp, Hu. simpl. rewrite andb_false_r. reflexivity. }
  split; [exact R|]. split.
  - rewrite R. apply JSMapFacts.get_delete_same.
  - unfold onUpdated, savePinnedTabs. rewrite Hp, Hu. simpl.
    rewrite andb_false_r. fields. reflexivity.
Qed.

Lemma onUpdated_pinned_blank_witness :
  pinnedTabs (exec (onUpdated 7 (mkChangeInfo (Some true) None)
                              (mkTab 7 "about:blank" true 0))
                   (set_pinnedTabs [(7, "https://mail.example.com/inbox")] DD))
  = []
  /\ pinnedUrls (storage
       (exec (onUpdated 7 (mkChangeInfo (Some true) None)
                        (mkTab 7 "about:blank" true 0))
             (set_pinnedTabs [(7, "https://mail.example.com/inbox")] DD)))
     = [].
Proof.
  destruct (onUpdated_pinned_blank 7 (mkChangeInfo (Some true) None)
              (mkTab 7 "about:blank" true 0)
              (set_pinnedTabs [(7, "https://mail.example.com/inbox")] DD))
    as (H1 & _ & H3); [reflexivity | reflexivity |].
  split; [exact H1 | exact H3].
Defined.

(** C8: a second [initializeExtension] that gets the same list of pinned
    tabs from the host, run on the state and store the first one left,
    ends with the same registry and the same persisted snapshot. *)
Theorem initializeExtension_idempotent :
  forall (pinnedTabsList : option (list Tab)) (e : Ext),
    pinnedTabs (exec (initializeExtension pinnedTabsList)
                     (exec (initializeExtension pinnedTabsList) e))
    = pinnedTabs (exec (initializeExtension pinnedTabsList) e)
    /\ pinnedUrls (storage (exec (initializeExtension pinnedTabsList)
                                 (exec (initializeExtension pinnedTabsList) e)))
       = pinnedUrls (storage (exec (initializeExtension pinnedTabsList) e)).
Proof.
  intros [l|] e.
  - destruct (initializeExtension_registry l e) as [R1 P1].
    destruct (initializeExtension_registry l
                (exec (initializeExtension (Some l)) e)) as [R2 P2].
    unfold persisted in *. rewrite P2, P1, R2, R1. split; reflexivity.
  - destruct (initializeExtension_rejected
                (exec (initializeExtension None) e)) as [R P].
    rewrite R, P. split; reflexivity.
Qed.

Example click_is_diverted :
  eval (intercept URL_parse (mkDetails 7 item 0) click_script) started
  = ([TabsGet 7; TabsCreate item 1; SetTimeout 100; TabsUpdate 7 inbox true], None)
  /\ pinnedTabs diverted = [(7, inbox)]
  /\ navigationLocks diverted = []
  /\ lastNavigationAttempts diverted = [(7, mkAttempt 5000 inbox)].
Proof. repeat split; reflexivity. Qed.

Example reload_is_not_diverted :
  intercept URL_parse (mkDetails 7 inbox 0) click_script started
  = ([TabsGet 7], None, started).
Proof. reflexivity. Qed.

(** C4, where the code falls short of it: tab 7 is pinned, a click in it
    is diverted (which records a last navigation attempt for 7), the tab
    is unpinned (which takes it out of the registry) and then closed.
    [onRemoved] finds no registry entry and cleans nothing: the last
    navigation attempt of tab 7 is still there. *)
Theorem onRemoved_after_unpin_keeps_attempt :
  JSMap.has Z.eqb 7 (pinnedTabs unpinned) = false
  /\ closed_after_unpin = unpinned
  /\ JSMap.get Z.eqb 7 (lastNavigationAttempts closed_after_unpin)
     = Some (mkAttempt 5000 inbox).
Proof. repeat split; reflexivity. Qed.

(* ------------------------------------------------------------------ *)
(** ** The host's tabs *)

Lemma tabs_get_In host k t : tabs_get host k = Some t -> In t host /\ id t = k.
Proof.
  unfold tabs_get. intros H. apply find_some in H.
  destruct H as [H1 H2]. split; [exact H1|]. now apply Z.eqb_eq.
Qed.

Lemma tabs_get_unique host t :
  well_formed host -> In t host -> tabs_get host (id t) = Some t.
Proof.
  unfold well_formed, tabs_get.
  induction host as [|a r IH]; simpl; intros W I; [contradiction|].
  inversion W as [|x l N W']; subst.
  destruct I as [->|I].
  - now rewrite Z.eqb_refl.
  - destruct (id a =? id t) eqn:E.
    + apply Z.eqb_eq in E. exfalso. apply N. rewrite E. now apply in_map.
    + auto.
Qed.

Lemma apply_change_id ci t : id (apply_change ci t) = id t.
Proof. reflexivity. Qed.

Lemma host_update_ids k ci host : map id (host_update k ci host) = map id host.
Proof.
  unfold host_update. rewrite map_map. apply map_ext.
  intros t. now destruct (id t =? k).
Qed.

Lemma host_update_In k ci host t' :
  In t' (host_update k ci host)
  <-> exists t, In t host /\ t' = if id t =? k then apply_change ci t else t.
Proof.
  unfold host_update. rewrite in_map_iff.
  split; intros [t [H1 H2]]; exists t; split; auto.
Qed.

Lemma host_update_other k ci host t :
  id t <> k -> (In t (host_update k ci host) <-> In t host).
Proof.
  intros N. rewrite host_update_In. split.
  - intros [t0 [I E]]. destruct (id t0 =? k) eqn:Q.
    + apply Z.eqb_eq in Q. subst t. rewrite apply_change_id in N. contradiction.
    + now subst.
  - intros I. exists t. split; [exact I|].
    apply Z.eqb_neq in N. now rewrite N.
Qed.

Lemma host_remove_In k host t :
  In t (host_remove k host) <-> In t host /\ id t <> k.
Proof.
  unfold host_remove. rewrite filter_In, negb_true_iff, Z.eqb_neq. tauto.
Qed.

Lemma host_remove_well_formed k host :
  well_formed host -> well_formed (host_remove k host).
Proof.
  unfold well_formed, host_remove.
  induction host as [|a r IH]; simpl; intros W; [constructor|].
  inversion W as [|x l N W']; subst.
  destruct (negb (id a =? k)); simpl; auto.
  constructor; auto.
  intros I. apply N. apply in_map_iff in I. destruct I as [t [E I]].
  apply filter_In in I. rewrite <- E. apply in_map. tauto.
Qed.

Lemma keeps_true t :
  keeps t = true <-> url t <> "" /\ url t <> "about:blank".
Proof.
  unfold keeps, truthy.
  rewrite andb_true_iff, !negb_true_iff, !String.eqb_neq. tauto.
Qed.

Lemma registry_of_has l : forall m j,
  JSMap.has Z.eqb j (registry_of l m) = true
  <-> JSMap.has Z.eqb j m = true
      \/ exists t, In t l /\ id t = j /\ keeps t = true.
Proof.
  induction l as [|a r IH]; intros m j.
  - simpl. split; [tauto|]. intros [H|[t [[] _]]]. exact H.
  - unfold registry_of in *. simpl fold_left. rewrite IH. split.
    + intros [H|[t [I H]]].
      * destruct (keeps a) eqn:K; [|tauto].
        destruct (Z.eq_dec j (id a)) as [->|N].
        -- right. exists a. simpl. tauto.
        -- rewrite (JSMapFacts.has_set_other Z.eqb Z.eqb_eq) in H by exact N. tauto.
      * right. exists t. simpl. tauto.
    + intros [H|[t [[->|I] [E K]]]].
      * left. destruct (keeps a); [|exact H].
        destruct (Z.eq_dec j (id a)) as [->|N].
        -- apply (JSMapFacts.has_set_same Z.eqb Z.eqb_eq).
        -- now rewrite (JSMapFacts.has_set_other Z.eqb Z.eqb_eq) by exact N.
      * left. rewrite K, <- E. apply (JSMapFacts.has_set_same Z.eqb Z.eqb_eq).
      * right. exists t. tauto.
Qed.

Lemma initializeExtension_consistent host e :
  consistent host (exec (initializeExtension (Some (tabs_query_pinned host))) e).
Proof.
  intros j. unfold registered.
  rewrite (proj1 (initializeExtension_registry _ e)), registry_of_has.
  unfold reports_pinned_nonblank, tabs_query_pinned. split.
  - intros [H|[t [I [E K]]]]; [discriminate|].
    apply filter_In in I. apply keeps_true in K. exists t. tauto.
  - intros [t (I & E & P & U)]. right. exists t.
    rewrite filter_In, keeps_true. tauto.
Qed.

Lemma consistent_weakly host e : consistent host e -> weakly_consistent host e.
Proof.
  intros C j. split.
  - apply C.
  - intros R. apply C in R. destruct R as [t (I & E & P & _)].
    exists t. tauto.
Qed.

Lemma reports_of_tab host k t :
  well_formed host -> tabs_get host k = Some t ->
  (reports_pinned host k <-> pinned t = true)
  /\ (reports_pinned_nonblank host k
      <-> pinned t = true /\ url t <> "" /\ url t <> "about:blank").
Proof.
  intros W G. destruct (@tabs_get_In host k t G) as [I E].
  assert (U : forall t0, In t0 host -> id t0 = k -> t0 = t).
  { intros t0 I0 E0. pose proof (@tabs_get_unique host t0 W I0) as G0.
    rewrite E0, G in G0. congruence. }
  unfold reports_pinned, reports_pinned_nonblank. split; split.
  - intros [t0 (I0 & E0 & P)]. now rewrite <- (U t0 I0 E0).
  - intros P. exists t. tauto.
  - intros [t0 (I0 & E0 & P)]. now rewrite <- (U t0 I0 E0).
  - intros P. exists t. tauto.
Qed.

Lemma reports_update_other host k ci j :
  j <> k ->
  (reports_pinned (host_update k ci host) j <-> reports_pinned host j)
  /\ (reports_pinned_nonblank (host_update k ci host) j
      <-> reports_pinned_nonblank host j).
Proof.
  intros N.
  assert (Q : forall t, id t = j ->
                (In t (host_update k ci host) <-> In t host)).
  { intros t E. apply host_update_other. congruence. }
  unfold reports_pinned, reports_pinned_nonblank.
  split; split; intros [t (I & E & P)]; exists t;
    (split; [apply (Q t E); exact I | tauto]).
Qed.

Lemma reports_remove host k j :
  (reports_pinned (host_remove k host) j <-> reports_pinned host j /\ j <> k)
  /\ (reports_pinned_nonblank (host_remove k host) j
      <-> reports_pinned_nonblank host j /\ j <> k).
Proof.
  unfold reports_pinned, reports_pinned_nonblank. split; split.
  - intros [t (I & E & P)]. apply host_remove_In in I. destruct I as [I N].
    split; [|congruence]. exists t. tauto.
  - intros [[t (I & E & P)] N]. exists t. rewrite host_remove_In.
    repeat split; auto. congruence.
  - intros [t (I & E & P)]. apply host_remove_In in I. destruct I as [I N].
    split; [|congruence]. exists t. tauto.
  - intros [[t (I & E & P)] N]. exists t. rewrite host_remove_In.
    repeat split; try tauto. congruence.
Qed.

Lemma tabs_get_update host k ci tab' :
  tabs_get (host_update k ci host) k = Some tab' ->
  exists t, tabs_get host k = Some t /\ tab' = apply_change ci t.
Proof.
  unfold tabs_get, host_update.
  induction host as [|a r IH]; simpl; [discriminate|].
  destruct (id a =? k) eqn:E.
  - rewrite apply_change_id, E. intros [= <-]. now exists a.
  - rewrite E. exact IH.
Qed.

Lemma has_onUpdated_other j k ci tab e :
  j <> k ->
  JSMap.has Z.eqb j (pinnedTabs (exec (onUpdated k ci tab) e))
  = JSMap.has Z.eqb j (pinnedTabs e).
Proof.
  intros N. rewrite onUpdated_registry. unfold url_branch, pin_branch.
  destruct (truthy_opt (ci_url ci) && pinned tab
            && negb (url tab =? "about:blank")%string);
    [rewrite (JSMapFacts.has_set_other Z.eqb Z.eqb_eq) by exact N|];
    (destruct (ci_pinned ci) as [b|];
     [destruct (b && negb (url tab =? "about:blank")%string);
      [rewrite (JSMapFacts.has_set_other Z.eqb Z.eqb_eq) by exact N
      |rewrite (JSMapFacts.has_delete_other Z.eqb Z.eqb_eq) by exact N]|]);
    reflexivity.
Qed.

Lemma has_onUpdated_same k ci tab e :
  JSMap.has Z.eqb k (pinnedTabs (exec (onUpdated k ci tab) e))
  = (truthy_opt (ci_url ci) && pinned tab
     && negb (url tab =? "about:blank")%string)
    || match ci_pinned ci with
       | Some b => b && negb (url tab =? "about:blank")%string
       | None => JSMap.has Z.eqb k (pinnedTabs e)
       end.
Proof.
  rewrite onUpdated_registry. unfold url_branch, pin_branch.
  destruct (truthy_opt (ci_url ci) && pinned tab
            && negb (url tab =? "about:blank")%string);
    [rewrite (JSMapFacts.has_set_same Z.eqb Z.eqb_eq); reflexivity|].
  simpl. destruct (ci_pinned ci) as [b|]; [|reflexivity].
  destruct (b && negb (url tab =? "about:blank")%string).
  - apply (JSMapFacts.has_set_same Z.eqb Z.eqb_eq).
  - apply JSMapFacts.has_delete_same.
Qed.

Lemma has_onRemoved j k e :
  JSMap.has Z.eqb j (pinnedTabs (exec (onRemoved k) e)) = true
  <-> JSMap.has Z.eqb j (pinnedTabs e) = true /\ j <> k.
Proof.
  rewrite onRemoved_pinnedTabs. destruct (Z.eq_dec j k) as [->|N].
  - rewrite JSMapFacts.has_delete_same. split; [discriminate|tauto].
  - rewrite (JSMapFacts.has_delete_other Z.eqb Z.eqb_eq) by exact N. tauto.
Qed.

Lemma world_step_well_formed ev host e :
  well_formed host -> fresh ev host ->
  well_formed (fst (world_step ev (host, e))).
Proof.
  intros W F. destruct ev as [k ci|k| | |t]; simpl.
  - destruct (tabs_get (host_update k ci host) k); simpl; [|exact W].
    unfold well_formed. now rewrite host_update_ids.
  - now apply host_remove_well_formed.
  - exact W.
  - exact W.
  - unfold well_formed in *. simpl in F. rewrite map_app. simpl.
    apply NoDup_app; [exact W|repeat constructor; intros []|].
    intros a Ia [<-|[]]. now apply F.
Qed.

Ltac bool_cases :=
  repeat match goal with
  | |- context [String.eqb ?a ?b] => destruct (String.eqb_spec a b)
  | H : context [String.eqb ?a ?b] |- _ => destruct (String.eqb_spec a b)
  end.

Lemma onUpdated_weakly_consistent host k ci tab' e :
  well_formed host ->
  tabs_get (host_update k ci host) k = Some tab' ->
  weakly_consistent host e ->
  weakly_consistent (host_update k ci host) (exec (onUpdated k ci tab') e).
Proof.
  intros W G C j. destruct (Z.eq_dec j k) as [->|N].
  - assert (W' : well_formed (host_update k ci host))
      by (unfold well_formed; now rewrite host_update_ids).
    destruct (@reports_of_tab _ _ _ W' G) as [Rp Rn].
    destruct (@tabs_get_update _ _ _ _ G) as (t & G0 & Eq).
    destruct (@reports_of_tab _ _ _ W G0) as [Rp0 Rn0].
    destruct (C k) as [CA CB]. unfold registered in *.
    rewrite has_onUpdated_same, Rp, Rn. rewrite Rn0 in CA. rewrite Rp0 in CB.
    subst tab'. destruct ci as [[b|] [u|]]; unfold truthy_opt, truthy; simpl in *;
      destruct (JSMap.has Z.eqb k (pinnedTabs e)), (pinned t);
      try destruct b; bool_cases; simpl; intuition congruence.
  - destruct (@reports_update_other host k ci j N) as [Rp Rn].
    unfold registered. rewrite has_onUpdated_other by exact N.
    rewrite Rp, Rn. apply C.
Qed.

Lemma onUpdated_consistent host k ci tab' e :
  well_formed host ->
  tabs_get (host_update k ci host) k = Some tab' ->
  stays_blank (TabUpdated k ci) host = false ->
  consistent host e ->
  consistent (host_update k ci host) (exec (onUpdated k ci tab') e).
Proof.
  intros W G B C j. destruct (Z.eq_dec j k) as [->|N].
  - assert (W' : well_formed (host_update k ci host))
      by (unfold well_formed; now rewrite host_update_ids).
    destruct (@reports_of_tab _ _ _ W' G) as [Rp Rn].
    destruct (@tabs_get_update _ _ _ _ G) as (t & G0 & Eq).
    destruct (@reports_of_tab _ _ _ W G0) as [Rp0 Rn0].
    pose proof (C k) as Ck. unfold registered in *.
    rewrite has_onUpdated_same, Rn. rewrite Rn0 in Ck.
    unfold stays_blank in B. rewrite G in B.
    subst tab'. destruct ci as [[b|] [u|]]; unfold truthy_opt, truthy; simpl in *;
      destruct (JSMap.has Z.eqb k (pinnedTabs e)), (pinned t);
      try destruct b; bool_cases; simpl in *; intuition congruence.
  - destruct (@reports_update_other host k ci j N) as [Rp Rn].
    unfold registered. rewrite has_onUpdated_other by exact N.
    rewrite Rn. apply C.
Qed.

Lemma onRemoved_weakly_consistent host k e :
  weakly_consistent host e ->
  weakly_consistent (host_remove k host) (exec (onRemoved k) e).
Proof.
  intros C j. destruct (reports_remove host k j) as [Rp Rn].
  destruct (C j) as [CA CB]. unfold registered in *.
  rewrite has_onRemoved, Rp, Rn. tauto.
Qed.

Lemma onRemoved_consistent host k e :
  consistent host e -> consistent (host_remove k host) (exec (onRemoved k) e).
Proof.
  intros C j. destruct (reports_remove host k j) as [Rp Rn].
  pose proof (C j) as Cj. unfold registered in *.
  rewrite has_onRemoved, Rn. tauto.
Qed.

Lemma initializeExtension_rejected_frame host e :
  (weakly_consistent host e ->
   weakly_consistent host (exec (initializeExtension None) e))
  /\ (consistent host e -> consistent host (exec (initializeExtension None) e)).
Proof.
  destruct (initializeExtension_rejected e) as [R _].
  unfold weakly_consistent, consistent, registered. rewrite R. tauto.
Qed.

Lemma reports_created host t j :
  pinned t && keeps t = false ->
  (reports_pinned host j -> reports_pinned (host ++ [t])%list j)
  /\ (reports_pinned_nonblank (host ++ [t])%list j
      <-> reports_pinned_nonblank host j).
Proof.
  intros O. unfold reports_pinned, reports_pinned_nonblank. split; [|split].
  - intros [x (I & E & P)]. exists x. rewrite in_app_iff. tauto.
  - intros [x (I & E & P & U)]. apply in_app_iff in I.
    destruct I as [I|[<-|[]]]; [exists x; tauto|].
    exfalso. rewrite P in O. simpl in O.
    apply keeps_true in U. congruence.
  - intros [x (I & E & P)]. exists x. rewrite in_app_iff. tauto.
Qed.

(** [initializeExtension] is its two halves, run one after the other. *)
Lemma initializeExtension_cut l e :
  exec (initializeExtension l) e
  = exec (initializeExtension_rebuild l) (exec initializeExtension_load e).
Proof.
  unfold initializeExtension, initializeExtension_load,
    initializeExtension_rebuild.
  destruct l as [l|]; fields; reflexivity.
Qed.

(** C2, as the code has it, for listeners that run one at a time: each is
    run to its end on the tabs the host has at that moment, and nothing
    else happens at its [await]s.  The events keep tab ids unique and keep
    the registry between two bounds: every tab the host reports pinned
    with a non-blank URL has an entry, and every entry is a tab the host
    reports pinned.  This holds for a tab update, a tab closing, a start
    (answered or rejected), and the opening of a tab that is not already
    pinned on a non-blank URL.  An answered [initializeExtension] makes
    the registry exactly the tabs pinned with a non-blank URL, and that
    equivalence is kept by the same events, except an update that leaves
    a pinned tab with an empty URL or moves it, pinned as before, to
    [about:blank]. *)
Theorem registry_consistency :
  forall (ev : HostEvent) (host : Host) (e : Ext),
    well_formed host ->
    fresh ev host ->
    well_formed (fst (world_step ev (host, e)))
    /\ (weakly_consistent host e -> opens_pinned ev = false ->
        weakly_consistent (fst (world_step ev (host, e)))
                          (snd (world_step ev (host, e))))
    /\ (ev = ExtensionStarted ->
        consistent (fst (world_step ev (host, e))) (snd (world_step ev (host, e))))
    /\ (consistent host e -> stays_blank ev host = false ->
        opens_pinned ev = false ->
        consistent (fst (world_step ev (host, e))) (snd (world_step ev (host, e)))).
Proof.
  intros ev host e W F. split; [now apply world_step_well_formed|].
  destruct ev as [k ci|k| | |t].
  - split; [|split; [discriminate|]].
    + intros C _. simpl.
      destruct (tabs_get (host_update k ci host) k) as [tab'|] eqn:G; simpl; auto.
      now apply onUpdated_weakly_consistent.
    + intros C B _. simpl.
      destruct (tabs_get (host_update k ci host) k) as [tab'|] eqn:G; simpl; auto.
      now apply onUpdated_consistent.
  - split; [|split; [discriminate|]]; intros C; simpl.
    + intros _. now apply onRemoved_weakly_consistent.
    + intros _ _. now apply onRemoved_consistent.
  - split; [|split]; intros; simpl.
    + apply consistent_weakly, initializeExtension_consistent.
    + apply initializeExtension_consistent.
    + apply initializeExtension_consistent.
  - split; [|split; [discriminate|]]; intros C; simpl.
    + intros _. now apply initializeExtension_rejected_frame.
    + intros _ _. now apply initializeExtension_rejected_frame.
  - split; [|split; [discriminate|]]; intros C; simpl.
    + intros O j. destruct (reports_created host t j O) as [Rp Rn].
      destruct (C j) as [CA CB]. rewrite Rn. split; auto.
    + intros _ O j. destruct (reports_created host t j O) as [_ Rn].
      rewrite Rn. apply C.
Qed.

Lemma registry_consistency_witness :
  well_formed [tab7]
  /\ consistent
       (fst (world_step (TabUpdated 7 (mkChangeInfo None (Some item)))
                        ([tab7], started)))
       (snd (world_step (TabUpdated 7 (mkChangeInfo None (Some item)))
                        ([tab7], started)))
  /\ weakly_consistent
       (fst (world_step (TabCreated (mkTab 8 item false 1)) ([tab7], started)))
       (snd (world_step (TabCreated (mkTab 8 item false 1)) ([tab7], started))).
Proof.
  assert (W : well_formed [tab7]).
  { unfold well_formed. simpl. constructor; [intros []|constructor]. }
  assert (F : fresh (TabCreated (mkTab 8 item false 1)) [tab7]).
  { simpl. intros [Q|[]]. discriminate Q. }
  destruct (@registry_consistency ExtensionStarted [tab7] DD W I)
    as (_ & _ & Start & _).
  split; [exact W|]. split.
  - destruct (@registry_consistency (TabUpdated 7 (mkChangeInfo None (Some item)))
                [tab7] started W I) as (_ & _ & _ & Keep).
    apply Keep; [exact (Start eq_refl) | reflexivity | reflexivity].
  - destruct (@registry_consistency (TabCreated (mkTab 8 item false 1))
                [tab7] started W F) as (_ & Weak & _).
    apply Weak; [|reflexivity].
    apply consistent_weakly. exact (Start eq_refl).
Defined.

(** C2 as it is written fails.  Tab 7, pinned and registered, goes to
    [about:blank]: the URL branch of [onUpdated] does nothing, the entry
    stays, and the host now reports a blank URL for the tab.  And the
    listeners are not alone at their [await]s: tab 7 is pinned while
    [initializeExtension] waits for the list the host computed before;
    the rebuild then clears the entry [onUpdated] made, and the tab the
    host reports pinned on the inbox has none. *)
Lemma registry_consistency_counterexample :
  consistent [tab7] started
  /\ fst blanked = [mkTab 7 "about:blank" true 0]
  /\ JSMap.get Z.eqb 7 (pinnedTabs (snd blanked)) = Some inbox
  /\ ~ consistent (fst blanked) (snd blanked)
  /\ tabs_query_pinned before_pin = []
  /\ fst pinned_meanwhile = [tab7]
  /\ pinnedTabs (snd pinned_meanwhile) = [(7, inbox)]
  /\ pinnedTabs rebuilt_late = []
  /\ ~ weakly_consistent (fst pinned_meanwhile) rebuilt_late.
Proof.
  split; [apply (initializeExtension_consistent [tab7] DD)|].
  split; [reflexivity|]. split; [reflexivity|]. split.
  { intros C. destruct (C 7) as [C1 _].
    destruct C1 as [t (I & _ & _ & _ & U)]; [reflexivity|].
    destruct I as [<-|[]]. apply U. reflexivity. }
  split; [reflexivity|]. split; [reflexivity|]. split; [reflexivity|].
  split; [reflexivity|].
  intros C. destruct (C 7) as [C1 _].
  assert (R : registered rebuilt_late 7).
  { apply C1. exists tab7. simpl. repeat split; auto; intros Q; discriminate Q. }
  discriminate R.
Qed.

(* ------------------------------------------------------------------ *)
(** ** The interceptor, segment by segment *)

Lemma lockKey_inj a b : lockKey a = lockKey b -> a = b.
Proof.
  unfold lockKey. simpl. intros [= H].
  apply (f_equal NilEmpty.int_of_string) in H.
  rewrite !NilEmpty.isi in H. injection H as H.
  now apply DecimalZ.to_int_inj.
Qed.

Section InterceptorFacts.
Variable URL_new : string -> option URL.

Lemma shouldOpenInNewTab_pinnedTabs c n e :
  pinnedTabs (exec (shouldOpenInNewTab URL_new c n) e) = pinnedTabs e.
Proof. apply shouldOpenInNewTab_same_but_log. Qed.

Lemma shouldOpenInNewTab_navigationLocks c n e :
  navigationLocks (exec (shouldOpenInNewTab URL_new c n) e) = navigationLocks e.
Proof. apply shouldOpenInNewTab_same_but_log. Qed.

Lemma shouldOpenInNewTab_lastNavigationAttempts c n e :
  lastNavigationAttempts (exec (shouldOpenInNewTab URL_new c n) e)
  = lastNavigationAttempts e.
Proof. apply shouldOpenInNewTab_same_but_log. Qed.

Lemma shouldOpenInNewTab_pinnedUrls c n e :
  pinnedUrls (storage (exec (shouldOpenInNewTab URL_new c n) e))
  = pinnedUrls (storage e).
Proof. apply shouldOpenInNewTab_same_but_log. Qed.

Hint Rewrite shouldOpenInNewTab_pinnedTabs shouldOpenInNewTab_navigationLocks
  shouldOpenInNewTab_lastNavigationAttempts shouldOpenInNewTab_pinnedUrls : ext.

Ltac case_if :=
  match goal with
  | |- context [if ?c then _ else _] => destruct c eqn:?
  end.

Ltac segments :=
  unfold complete, fail; unfold leave; unfold release;
  repeat (fields; try case_if).

(** The first segment: skipped when the lock is held; otherwise it takes
    the lock, and either suspends on [browser.tabs.get] or gives the lock
    back. *)
Lemma onBeforeNavigate_locked details e :
  locked e (d_tabId details) ->
  onBeforeNavigate details e
  = (None, exec (debugLog "Navigation already in progress, skipping:") e).
Proof.
  unfold locked, onBeforeNavigate. intros L.
  rewrite run_pair. fields. rewrite L. fields. reflexivity.
Qed.

Lemma onBeforeNavigate_free details e :
  ~ locked e (d_tabId details) ->
  (eval (onBeforeNavigate details) e = None
   /\ navigationLocks (exec (onBeforeNavigate details) e)
      = JSMap.delete String.eqb (lockKey (d_tabId details))
          (JSMap.set String.eqb (lockKey (d_tabId details)) true
             (navigationLocks e)))
  \/ (eval (onBeforeNavigate details) e = Some (mkProc details AwaitGet)
      /\ navigationLocks (exec (onBeforeNavigate details) e)
         = JSMap.set String.eqb (lockKey (d_tabId details)) true
             (navigationLocks e)).
Proof.
  unfold locked, onBeforeNavigate. intros L. fields.
  destruct (JSMap.get String.eqb (lockKey (d_tabId details)) (navigationLocks e))
    as [[|]|]; [contradiction| | ]; segments; auto.
Qed.

Lemma onBeforeNavigate_frame details e :
  pinnedTabs (exec (onBeforeNavigate details) e) = pinnedTabs e
  /\ lastNavigationAttempts (exec (onBeforeNavigate details) e)
     = lastNavigationAttempts e
  /\ pinnedUrls (storage (exec (onBeforeNavigate details) e))
     = pinnedUrls (storage e)
  /\ (eval (onBeforeNavigate details) e = None
      \/ eval (onBeforeNavigate details) e = Some (mkProc details AwaitGet)).
Proof.
  unfold onBeforeNavigate. fields.
  destruct (JSMap.get String.eqb (lockKey (d_tabId details)) (navigationLocks e))
    as [[|]|]; segments; auto.
Qed.

(** A later segment: it ends the invocation and gives the lock back, or it
    suspends again, nearer to the end, and leaves the locks alone. *)
Lemma resume_locks p r now e :
  match eval (resume URL_new p r now) e with
  | None =>
      navigationLocks (exec (resume URL_new p r now) e)
      = JSMap.delete String.eqb (lockKey (d_tabId (details p))) (navigationLocks e)
  | Some p' =>
      details p' = details p /\ (remaining p' < remaining p)%nat
      /\ navigationLocks (exec (resume URL_new p r now) e) = navigationLocks e
  end.
Proof.
  destruct p as [d c]. unfold resume.
  destruct r as [v|]; [|segments; reflexivity].
  destruct c; try destruct v as [tab'|]; segments;
    unfold remaining; simpl; fields; auto with arith.
Qed.

Lemma resume_frame p r now e :
  pinnedTabs (exec (resume URL_new p r now) e) = pinnedTabs e
  /\ pinnedUrls (storage (exec (resume URL_new p r now) e))
     = pinnedUrls (storage e).
Proof.
  destruct p as [d c]. unfold resume.
  destruct r as [v|]; [|segments; auto].
  destruct c; try destruct v as [tab'|]; segments; fields; auto.
Qed.
End InterceptorFacts.

Section RunFacts.
Variable URL_new : string -> option URL.

Lemma run_done script e : run URL_new None script e = (([], None), e).
Proof. destruct script; reflexivity. Qed.

Lemma run_waiting p e : run URL_new (Some p) [] e = (([awaited p], Some p), e).
Proof. reflexivity. Qed.

Lemma run_answer p r now script e :
  run URL_new (Some p) ((r, now) :: script) e
  = ((awaited p
        :: fst (eval (run URL_new (eval (resume URL_new p r now) e) script)
                     (exec (resume URL_new p r now) e)),
      snd (eval (run URL_new (eval (resume URL_new p r now) e) script)
                (exec (resume URL_new p r now) e))),
     exec (run URL_new (eval (resume URL_new p r now) e) script)
          (exec (resume URL_new p r now) e)).
Proof.
  simpl run. rewrite run_pair. fields. reflexivity.
Qed.

Lemma intercept_run details script e :
  intercept URL_new details script e
  = run URL_new (eval (onBeforeNavigate details) e) script
        (exec (onBeforeNavigate details) e).
Proof.
  unfold intercept. rewrite run_pair. fields. symmetry. apply run_pair.
Qed.

Lemma eval_run_done script e : eval (run URL_new None script) e = ([], None).
Proof. unfold eval. now rewrite run_done. Qed.

Lemma exec_run_done script e : exec (run URL_new None script) e = e.
Proof. unfold exec. now rewrite run_done. Qed.

Lemma eval_run_answer p r now script e :
  eval (run URL_new (Some p) ((r, now) :: script)) e
  = (awaited p
       :: fst (eval (run URL_new (eval (resume URL_new p r now) e) script)
                    (exec (resume URL_new p r now) e)),
     snd (eval (run URL_new (eval (resume URL_new p r now) e) script)
               (exec (resume URL_new p r now) e))).
Proof. unfold eval at 1. now rewrite run_answer. Qed.

Lemma exec_run_answer p r now script e :
  exec (run URL_new (Some p) ((r, now) :: script)) e
  = exec (run URL_new (eval (resume URL_new p r now) e) script)
         (exec (resume URL_new p r now) e).
Proof. unfold exec at 1. now rewrite run_answer. Qed.

Lemma eval_intercept details script e :
  eval (intercept URL_new details script) e
  = eval (run URL_new (eval (onBeforeNavigate details) e) script)
         (exec (onBeforeNavigate details) e).
Proof. unfold eval at 1 2. now rewrite intercept_run. Qed.

Lemma exec_intercept details script e :
  exec (intercept URL_new details script) e
  = exec (run URL_new (eval (onBeforeNavigate details) e) script)
         (exec (onBeforeNavigate details) e).
Proof. unfold exec at 1 2. now rewrite intercept_run. Qed.

Lemma resume_echo d r now e a :
  JSMap.get Z.eqb (d_tabId d) (lastNavigationAttempts e) = Some a ->
  d_url d = originalUrl a ->
  now - timestamp a < 1000 ->
  eval (resume URL_new (mkProc d AwaitGet) r now) e = None
  /\ lastNavigationAttempts (exec (resume URL_new (mkProc d AwaitGet) r now) e)
     = lastNavigationAttempts e.
Proof.
  intros G U T.
  assert (E : is_echo (Some a) now (d_url d) = true).
  { unfold is_echo. apply Z.ltb_lt in T. rewrite T, U, String.eqb_refl.
    reflexivity. }
  unfold resume. cbn [details pc].
  destruct r as [[tab|]|]; unfold complete, fail; unfold leave; unfold release;
    fields; auto.
  destruct (negb (pinned tab) || negb (truthy (url tab))); fields; auto.
  rewrite G, E. fields. auto.
Qed.
End RunFacts.

(** C5, as the code has it: a navigation event for a tab with a recorded
    last attempt [(timestamp, originalUrl)], whose target is [originalUrl]
    and which is handled less than 1000 ms after [timestamp] (the clock
    is read once [browser.tabs.get] has answered, not when the event
    arrives), is let through: whatever the host answers, the invocation
    asks for no new tab and no update of the pinned tab, it ends at its
    first answer, and the registry, the snapshot and the recorded attempts
    stay as they were. *)
Theorem echo_suppression :
  forall (URL_new : string -> option URL) (details : Details) (a : Attempt)
         (script : list (Response * Z)) (e : Ext),
    JSMap.get Z.eqb (d_tabId details) (lastNavigationAttempts e) = Some a ->
    d_url details = originalUrl a ->
    (forall r now, In (r, now) script -> now - timestamp a < 1000) ->
    existsb is_diversion (fst (eval (intercept URL_new details script) e)) = false
    /\ (script <> [] -> snd (eval (intercept URL_new details script) e) = None)
    /\ pinnedTabs (exec (intercept URL_new details script) e) = pinnedTabs e
    /\ pinnedUrls (storage (exec (intercept URL_new details script) e))
       = pinnedUrls (storage e)
    /\ lastNavigationAttempts (exec (intercept URL_new details script) e)
       = lastNavigationAttempts e.
Proof.
  intros URL_new details a script e G U T.
  rewrite eval_intercept, exec_intercept.
  destruct (onBeforeNavigate_frame details e) as (F1 & F2 & F3 & [N|S]).
  - rewrite N, eval_run_done, exec_run_done. simpl. auto.
  - rewrite S. destruct script as [|[r now] rest].
    + unfold eval, exec. rewrite run_waiting. simpl. repeat split; auto.
      congruence.
    + rewrite <- F2 in G.
      destruct (resume_echo URL_new details r now _ G U
                  (T r now (or_introl eq_refl))) as [R1 R2].
      destruct (resume_frame URL_new (mkProc details AwaitGet) r now
                  (exec (onBeforeNavigate details) e)) as [R3 R4].
      rewrite eval_run_answer, exec_run_answer, R1.
      rewrite eval_run_done, exec_run_done. simpl.
      rewrite R2, R3, R4. repeat split; auto.
Qed.

Lemma echo_suppression_witness :
  existsb is_diversion
    (fst (eval (intercept URL_parse (mkDetails 7 inbox 0)
                  [(Resolved (Some (mkTab 7 item true 0)), 5500)])
               (set_pinnedTabs [(7, item)] diverted))) = false
  /\ snd (eval (intercept URL_parse (mkDetails 7 inbox 0)
                  [(Resolved (Some (mkTab 7 item true 0)), 5500)])
               (set_pinnedTabs [(7, item)] diverted)) = None.
Proof.
  destruct (@echo_suppression URL_parse (mkDetails 7 inbox 0)
              (mkAttempt 5000 inbox)
              [(Resolved (Some (mkTab 7 item true 0)), 5500)]
              (set_pinnedTabs [(7, item)] diverted)) as (H1 & H2 & _).
  - reflexivity.
  - reflexivity.
  - intros r now [[= <- <-]|[]]. simpl. lia.
  - split; [exact H1|]. apply H2. discriminate.
Defined.

(** C5 as it is written fails: what counts is not when the event arrives.
    The attempt of tab 7 is recorded at 5000; the navigation back to the
    inbox arrives at 5999, within 1000 ms; the host reports the tab at
    6000, where the listener reads the clock; the navigation is diverted
    into a new tab. *)
Lemma echo_suppression_counterexample :
  JSMap.get Z.eqb 7 (lastNavigationAttempts reloading)
  = Some (mkAttempt 5000 inbox)
  /\ d_url (mkDetails 7 inbox 0) = originalUrl (mkAttempt 5000 inbox)
  /\ 5999 - timestamp (mkAttempt 5000 inbox) < 1000
  /\ after_arrival 5999 [(Resolved (Some (mkTab 7 item true 0)), 6000)]
  /\ eval (intercept URL_parse (mkDetails 7 inbox 0)
             [(Resolved (Some (mkTab 7 item true 0)), 6000)]) reloading
     = ([TabsGet 7; TabsCreate inbox 1],
        Some (mkProc (mkDetails 7 inbox 0)
                     (AwaitCreate (mkTab 7 item true 0) item))).
Proof.
  split; [reflexivity|]. split; [reflexivity|]. split; [reflexivity|].
  split; [|reflexivity].
  intros r now [[= <- <-]|[]]. lia.
Qed.

Example late_echo_is_diverted :
  eval (intercept URL_parse (mkDetails 7 inbox 0)
          [(Resolved (Some (mkTab 7 item true 0)), 6000)])
       (set_pinnedTabs [(7, item)] diverted)
  = ([TabsGet 7; TabsCreate inbox 1],
     Some (mkProc (mkDetails 7 inbox 0)
                  (AwaitCreate (mkTab 7 item true 0) item))).
Proof. reflexivity. Qed.

(* ------------------------------------------------------------------ *)
(** ** The locks under interleaving *)

Lemma replace_nth_same A B (f : A -> B) n (l : list A) x y :
  nth_error l n = Some x -> f y = f x ->
  map f (replace_nth n (Some y) l) = map f l.
Proof.
  revert n. induction l as [|a r IH]; intros [|n]; simpl; try discriminate.
  - intros [= ->] E. now rewrite E.
  - intros H E. now rewrite (IH n H E).
Qed.

Lemma replace_nth_In A n (l : list A) y q :
  In q (replace_nth n (Some y) l) -> q = y \/ In q l.
Proof.
  revert n. induction l as [|a r IH]; intros [|n]; simpl; try tauto.
  - intros [H|H]; auto.
  - intros [H|H]; auto. destruct (IH n H); auto.
Qed.

Lemma remove_nth_NoDup A B (f : A -> B) n (l : list A) x :
  NoDup (map f l) -> nth_error l n = Some x ->
  NoDup (map f (replace_nth n None l))
  /\ forall q, In q (replace_nth n None l) -> In q l /\ f q <> f x.
Proof.
  revert n. induction l as [|a r IH]; intros [|n]; simpl; try discriminate.
  - intros W [= ->]. inversion W as [|y l N W']; subst. split; [exact W'|].
    intros q I. split; [now right|]. intros E. apply N. rewrite <- E.
    now apply in_map.
  - intros W H. inversion W as [|y l N W']; subst.
    destruct (IH n W' H) as [D Q]. split.
    + constructor; [|exact D]. intros I. apply N.
      apply in_map_iff in I. destruct I as [q [E I]].
      rewrite <- E. apply in_map. now apply Q.
    + intros q [<-|I].
      * split; [now left|]. intros E. apply N. rewrite E.
        apply in_map. eapply nth_error_In. exact H.
      * destruct (Q q I). split; [now right|assumption].
Qed.

Lemma locked_set_other (m : JSMap.t string bool) a t :
  JSMap.get String.eqb (lockKey a) m = Some true ->
  JSMap.get String.eqb (lockKey a) (JSMap.set String.eqb (lockKey t) true m)
  = Some true.
Proof.
  intros H. destruct (String.eqb_spec (lockKey a) (lockKey t)) as [E|N].
  - rewrite E. apply (JSMapFacts.get_set_same String.eqb String.eqb_eq).
  - now rewrite (JSMapFacts.get_set_other String.eqb String.eqb_eq) by exact N.
Qed.

Lemma locked_delete_other (m : JSMap.t string bool) a t :
  a <> t ->
  JSMap.get String.eqb (lockKey a) (JSMap.delete String.eqb (lockKey t) m)
  = JSMap.get String.eqb (lockKey a) m.
Proof.
  intros N. apply (JSMapFacts.get_delete_other String.eqb String.eqb_eq).
  intros E. apply N. now apply lockKey_inj.
Qed.

Lemma onUpdated_navigationLocks k ci tab e :
  navigationLocks (exec (onUpdated k ci tab) e) = navigationLocks e.
Proof.
  unfold onUpdated, savePinnedTabs.
  destruct (ci_pinned ci) as [b|];
    [destruct (b && negb (url tab =? "about:blank")%string)|];
    destruct (truthy_opt (ci_url ci) && pinned tab
              && negb (url tab =? "about:blank")%string);
    fields; reflexivity.
Qed.

Lemma initializeExtension_navigationLocks l e :
  navigationLocks (exec (initializeExtension l) e) = navigationLocks e.
Proof.
  unfold initializeExtension, savePinnedTabs. destruct l as [l|]; fields.
  - rewrite for_of_registry. fields. reflexivity.
  - reflexivity.
Qed.

Lemma loadSettings_navigationLocks e :
  navigationLocks (exec loadSettings e) = navigationLocks e.
Proof. unfold loadSettings. fields. reflexivity. Qed.

Lemma onStorageChanged_navigationLocks changes area e :
  navigationLocks (exec (onStorageChanged changes area) e) = navigationLocks e.
Proof.
  unfold onStorageChanged.
  destruct (area =? "local")%string, (ch_debugMode changes),
    (ch_linkBehavior changes); fields; reflexivity.
Qed.

Lemma onRemoved_navigationLocks k e :
  navigationLocks (exec (onRemoved k) e) = navigationLocks e
  \/ navigationLocks (exec (onRemoved k) e)
     = JSMap.delete String.eqb (lockKey k) (navigationLocks e).
Proof.
  destruct (JSMap.has Z.eqb k (pinnedTabs e)) eqn:H.
  - right. now apply onRemoved_registered.
  - left. now rewrite onRemoved_unregistered.
Qed.

Section SystemFacts.
Variable URL_new : string -> option URL.

Lemma sys_step_exclusive ev s :
  exclusive s -> admissible ev s -> exclusive (sys_step URL_new ev s).
Proof.
  intros [D L] A.
  destruct ev as [d|n r now|k ci tab|k|l| |ch area]; simpl in A; unfold sys_step.
  - (* a navigation event arrives *)
    destruct (JSMap.get String.eqb (lockKey (d_tabId d)) (navigationLocks (ext s)))
      as [[|]|] eqn:G.
    + rewrite onBeforeNavigate_locked by exact G.
      unfold exclusive. simpl. rewrite app_nil_r. split; [exact D|].
      intros q I C. unfold locked. rewrite debugLog_navigationLocks.
      now apply L.
    + assert (NL : ~ locked (ext s) (d_tabId d))
        by (unfold locked; rewrite G; discriminate).
      assert (Fresh : forall q, In q (inflight s) ->
                        d_tabId (details q) <> d_tabId d).
      { intros q I E. apply NL. rewrite <- E. apply L; [exact I|].
        now rewrite E. }
      rewrite (run_pair (onBeforeNavigate d) (ext s)).
      destruct (onBeforeNavigate_free d NL) as [[E Lk]|[E Lk]]; rewrite E;
        unfold exclusive, locked; simpl; rewrite Lk.
      * rewrite app_nil_r. split; [exact D|]. intros q I C.
        rewrite locked_delete_other by (now apply Fresh).
        apply locked_set_other. now apply L.
      * rewrite map_app. split.
        -- apply NoDup_app; [exact D|repeat constructor; intros []|].
           intros a Ia [<-|[]]. apply in_map_iff in Ia.
           destruct Ia as [q [Eq Iq]]. now apply (Fresh q Iq).
        -- intros q I C. apply in_app_iff in I. destruct I as [I|[<-|[]]].
           ++ apply locked_set_other. now apply L.
           ++ apply (JSMapFacts.get_set_same String.eqb String.eqb_eq).
    + assert (NL : ~ locked (ext s) (d_tabId d))
        by (unfold locked; rewrite G; discriminate).
      assert (Fresh : forall q, In q (inflight s) ->
                        d_tabId (details q) <> d_tabId d).
      { intros q I E. apply NL. rewrite <- E. apply L; [exact I|].
        now rewrite E. }
      rewrite (run_pair (onBeforeNavigate d) (ext s)).
      destruct (onBeforeNavigate_free d NL) as [[E Lk]|[E Lk]]; rewrite E;
        unfold exclusive, locked; simpl; rewrite Lk.
      * rewrite app_nil_r. split; [exact D|]. intros q I C.
        rewrite locked_delete_other by (now apply Fresh).
        apply locked_set_other. now apply L.
      * rewrite map_app. split.
        -- apply NoDup_app; [exact D|repeat constructor; intros []|].
           intros a Ia [<-|[]]. apply in_map_iff in Ia.
           destruct Ia as [q [Eq Iq]]. now apply (Fresh q Iq).
        -- intros q I C. apply in_app_iff in I. destruct I as [I|[<-|[]]].
           ++ apply locked_set_other. now apply L.
           ++ apply (JSMapFacts.get_set_same String.eqb String.eqb_eq).
  - (* the host answers a suspended invocation *)
    destruct (nth_error (inflight s) n) as [p|] eqn:H; [|exact (conj D L)].
    rewrite (run_pair (resume URL_new p r now) (ext s)).
    pose proof (resume_locks URL_new p r now (ext s)) as RL.
    destruct (eval (resume URL_new p r now) (ext s)) as [p'|].
    + destruct RL as (Ed & _ & Lk). unfold exclusive, locked. simpl.
      rewrite (@replace_nth_same _ _ (fun p => d_tabId (details p)) n
                 (inflight s) p p' H) by (now rewrite Ed).
      split; [exact D|]. intros q I C. rewrite Lk.
      destruct (@replace_nth_In _ n (inflight s) p' q I) as [->|I'].
      * rewrite Ed in *. apply L; [|exact C]. eapply nth_error_In. exact H.
      * now apply L.
    + destruct (@remove_nth_NoDup _ _ (fun p => d_tabId (details p)) n
                  (inflight s) p D H) as [D' Q].
      unfold exclusive, locked. simpl. split; [exact D'|].
      intros q I C. destruct (Q q I) as [I' N]. rewrite RL.
      rewrite locked_delete_other by exact N. now apply L.
  - unfold exclusive, locked. simpl. split; [exact D|]. intros q I C.
    rewrite onUpdated_navigationLocks. now apply L.
  - unfold exclusive, locked. simpl. split; [exact D|]. intros q I C.
    assert (N : d_tabId (details q) <> k) by (intros E; apply C; now left).
    assert (C' : ~ In (d_tabId (details q)) (closed s))
      by (intros E; apply C; now right).
    destruct (onRemoved_navigationLocks k (ext s)) as [E|E]; rewrite E;
      [|rewrite locked_delete_other by exact N]; now apply L.
  - unfold exclusive, locked. simpl. split; [exact D|]. intros q I C.
    rewrite initializeExtension_navigationLocks. now apply L.
  - unfold exclusive, locked. simpl. split; [exact D|]. intros q I C.
    rewrite loadSettings_navigationLocks. now apply L.
  - unfold exclusive, locked. simpl. split; [exact D|]. intros q I C.
    rewrite onStorageChanged_navigationLocks. now apply L.
Qed.

Lemma reachable_exclusive s : reachable URL_new s -> exclusive s.
Proof.
  induction 1 as [st|s ev R IH A].
  - split; simpl; [constructor|intros p []].
  - now apply sys_step_exclusive.
Qed.

Lemma run_completes script : forall p e,
  (remaining p <= List.length script)%nat ->
  snd (eval (run URL_new (Some p) script) e) = None
  /\ unlocked (exec (run URL_new (Some p) script) e) (d_tabId (details p)).
Proof.
  induction script as [|[r now] rest IH]; intros p e Len.
  - exfalso. destruct p as [d []]; unfold remaining in Len; simpl in Len; lia.
  - rewrite eval_run_answer, exec_run_answer. simpl snd.
    pose proof (resume_locks URL_new p r now e) as RL.
    destruct (eval (resume URL_new p r now) e) as [p'|].
    + destruct RL as (Ed & Lt & _). rewrite <- Ed. apply IH.
      simpl List.length in Len. lia.
    + rewrite eval_run_done, exec_run_done. split; [reflexivity|].
      unfold unlocked. rewrite RL. apply JSMapFacts.get_delete_same.
Qed.
End SystemFacts.

(** C3, as the code has it.  In every state the listeners can reach, each
    tab has at most one suspended invocation of the interceptor, and it
    holds the lock of its tab; a navigation event for that tab that
    arrives meanwhile returns at the lock check, adds no invocation and
    changes nothing but the debug log (nothing at all with debug mode
    off).  An invocation that passed the lock check gives the lock back
    when it ends, at its first segment or at a later one, by return, by
    success or by a caught error; and it does end, within the six awaits
    of the listener. *)
Theorem lock_discipline :
  forall URL_new : string -> option URL,
    (forall s, reachable URL_new s -> exclusive s)
    /\ (forall s p d,
          reachable URL_new s -> In p (inflight s) ->
          d_tabId d = d_tabId (details p) -> ~ In (d_tabId d) (closed s) ->
          eval (onBeforeNavigate d) (ext s) = None
          /\ inflight (sys_step URL_new (Navigate d) s) = inflight s
          /\ same_but_log (ext s) (exec (onBeforeNavigate d) (ext s))
          /\ (debugMode (ext s) = false ->
              exec (onBeforeNavigate d) (ext s) = ext s))
    /\ (forall d e,
          ~ locked e (d_tabId d) -> eval (onBeforeNavigate d) e = None ->
          unlocked (exec (onBeforeNavigate d) e) (d_tabId d))
    /\ (forall p r now e,
          eval (resume URL_new p r now) e = None ->
          unlocked (exec (resume URL_new p r now) e) (d_tabId (details p)))
    /\ (forall p script e,
          (remaining p <= List.length script)%nat ->
          snd (eval (run URL_new (Some p) script) e) = None
          /\ unlocked (exec (run URL_new (Some p) script) e)
                      (d_tabId (details p))).
Proof.
  intros URL_new. split; [apply reachable_exclusive|]. split; [|split; [|split]].
  - intros s p d R I E C.
    destruct (reachable_exclusive R) as [_ L].
    assert (Lk : locked (ext s) (d_tabId d)).
    { rewrite E. apply L; [exact I|]. now rewrite <- E. }
    pose proof (onBeforeNavigate_locked d Lk) as O.
    split; [unfold eval; now rewrite O|].
    split; [unfold sys_step; rewrite O; simpl; apply app_nil_r|].
    split.
    + unfold exec at 1. rewrite O. cbn [snd]. apply debugLog_same_but_log.
    + intros Off. unfold exec at 1. rewrite O. cbn [snd].
      unfold exec. now rewrite debugLog_off.
  - intros d e NL N. unfold unlocked.
    destruct (onBeforeNavigate_free d NL) as [[_ Lk]|[S _]]; [|congruence].
    rewrite Lk. apply JSMapFacts.get_delete_same.
  - intros p r now e N. unfold unlocked.
    pose proof (resume_locks URL_new p r now e) as RL. rewrite N in RL.
    rewrite RL. apply JSMapFacts.get_delete_same.
  - intros p script e. apply run_completes.
Qed.

Lemma lock_discipline_witness :
  locked suspended 7
  /\ unlocked (exec (resume URL_parse (mkProc (mkDetails 7 item 0) AwaitGet)
                            Rejected 5000) suspended) 7.
Proof.
  split; [reflexivity|].
  destruct (lock_discipline URL_parse) as (_ & _ & _ & Done & _).
  apply (Done (mkProc (mkDetails 7 item 0) AwaitGet) Rejected 5000 suspended).
  reflexivity.
Defined.

(** C3 as it is written fails for the invocation that is turned away:
    while the click in tab 7 is suspended, a second navigation event for
    tab 7 returns at the lock check; it has ended, and the lock of tab 7
    is still held (by the first).  With debug mode on it also leaves an
    entry in the debug log. *)
Lemma lock_discipline_counterexample :
  eval (onBeforeNavigate (mkDetails 7 item 0)) started
  = Some (mkProc (mkDetails 7 item 0) AwaitGet)
  /\ onBeforeNavigate (mkDetails 7 cart 0) suspended = (None, suspended)
  /\ locked suspended 7
  /\ debugLogs (storage (exec (onBeforeNavigate (mkDetails 7 cart 0))
                              (set_debugMode true suspended)))
     = (debugLogs (storage suspended)
        ++ ["Navigation already in progress, skipping:"])%list.
Proof. repeat split; reflexivity. Qed.

(* ------------------------------------------------------------------ *)
(** ** More on the domain comparison *)

(** X1: [isDifferentDomain] gives the same answer when its two URLs are
    swapped. *)
Theorem isDifferentDomain_symmetric :
  forall (URL_new : string -> option URL) (url1 url2 : string) (e : Ext),
    eval (isDifferentDomain URL_new url1 url2) e
    = eval (isDifferentDomain URL_new url2 url1) e.
Proof.
  intros URL_new u1 u2 e.
  destruct (URL_new u1) as [d1|] eqn:E1; destruct (URL_new u2) as [d2|] eqn:E2.
  - rewrite (isDifferentDomain_parsed URL_new u1 u2 e E1 E2).
    rewrite (isDifferentDomain_parsed URL_new u2 u1 e E2 E1).
    rewrite (String.eqb_sym (getBaseDomain (hostname d2))).
    now rewrite (orb_comm (privileged d1)).
  - rewrite !isDifferentDomain_unparsed; auto.
  - rewrite !isDifferentDomain_unparsed; auto.
  - rewrite !isDifferentDomain_unparsed; auto.
Qed.

Lemma no_dot_cons c s :
  no_dot (String c s) = negb (Ascii.eqb c dot) && no_dot s.
Proof. reflexivity. Qed.

Lemma split_dot_label s : no_dot s = true -> split_dot s = [s].
Proof.
  induction s as [|c r IH]; [reflexivity|].
  rewrite no_dot_cons, andb_true_iff, negb_true_iff. intros [C R].
  simpl. rewrite C, (IH R). reflexivity.
Qed.

Lemma split_dot_app p s :
  no_dot p = true -> split_dot (p ++ String dot s) = p :: split_dot s.
Proof.
  induction p as [|c r IH].
  - intros _. reflexivity.
  - rewrite no_dot_cons, andb_true_iff, negb_true_iff. intros [C R].
    simpl. rewrite C, (IH R). reflexivity.
Qed.

Lemma split_dot_labels s : Forall (fun p => no_dot p = true) (split_dot s).
Proof.
  induction s as [|c r IH]; simpl.
  - repeat constructor.
  - destruct (Ascii.eqb c dot) eqn:C.
    + constructor; [reflexivity|exact IH].
    + destruct (split_dot r) as [|p ps].
      * constructor; [|constructor]. rewrite no_dot_cons, C. reflexivity.
      * inversion IH; subst. constructor; [|assumption].
        rewrite no_dot_cons, C. simpl. assumption.
Qed.

Lemma split_join_dot l :
  l <> [] -> Forall (fun p => no_dot p = true) l -> split_dot (join_dot l) = l.
Proof.
  induction l as [|p ps IH]; [congruence|]. intros _ F.
  inversion F as [|x y Hp Hps]; subst.
  destruct ps as [|q qs].
  - simpl. now apply split_dot_label.
  - rewrite join_dot_cons by discriminate.
    rewrite split_dot_app by exact Hp. f_equal. apply IH; [discriminate|exact Hps].
Qed.

Lemma Forall_skipn_labels A (P : A -> Prop) n l : Forall P l -> Forall P (skipn n l).
Proof.
  revert l. induction n as [|n IH]; intros l F; [exact F|].
  destruct l as [|a r]; [constructor|]. simpl. apply IH. now inversion F.
Qed.

(** X2: the base domain has one or two labels, and taking the base domain
    again changes nothing. *)
Theorem getBaseDomain_idempotent :
  forall hostname : string,
    getBaseDomain (getBaseDomain hostname) = getBaseDomain hostname
    /\ (1 <= List.length (split_dot (getBaseDomain hostname)) <= 2)%nat.
Proof.
  intros h.
  assert (B : (1 <= List.length (split_dot (getBaseDomain h)) <= 2)%nat).
  { unfold getBaseDomain.
    destruct (2 <? List.length (split_dot h))%nat eqn:E.
    - apply Nat.ltb_lt in E. unfold slice_last.
      rewrite split_join_dot.
      + rewrite length_skipn. lia.
      + intros N. apply (f_equal (@List.length string)) in N.
        rewrite length_skipn in N. simpl in N. lia.
      + apply Forall_skipn_labels, split_dot_labels.
    - apply Nat.ltb_ge in E. split; [|exact E].
      pose proof (split_dot_nonempty h) as N.
      destruct (split_dot h); [congruence|simpl; lia]. }
  split; [|exact B].
  unfold getBaseDomain at 1.
  destruct (2 <? List.length (split_dot (getBaseDomain h)))%nat eqn:E;
    [|reflexivity].
  apply Nat.ltb_lt in E. lia.
Qed.

(* ------------------------------------------------------------------ *)
(** ** More on the registry handlers *)

Lemma set_fresh (m : JSMap.t Z string) k v :
  ~ In k (map fst m) -> JSMap.set Z.eqb k v m = (m ++ [(k, v)])%list.
Proof.
  induction m as [|[k' v'] r IH]; simpl; intros N; [reflexivity|].
  destruct (k =? k') eqn:E.
  - apply Z.eqb_eq in E. exfalso. apply N. now left.
  - rewrite IH; [reflexivity|]. intros I. apply N. now right.
Qed.

Lemma set_keys (m : JSMap.t Z string) k v :
  JSMap.has Z.eqb k m = true ->
  map fst (JSMap.set Z.eqb k v m) = map fst m.
Proof.
  unfold JSMap.has. induction m as [|[k' v'] r IH]; simpl; [discriminate|].
  destruct (k =? k') eqn:E.
  - apply Z.eqb_eq in E. subst. reflexivity.
  - intros H. simpl. now rewrite (IH H).
Qed.

Lemma registry_of_fresh l : forall m,
  NoDup (map id l) ->
  (forall t, In t l -> ~ In (id t) (map fst m)) ->
  registry_of l m = (m ++ map (fun t => (id t, url t)) (filter keeps l))%list.
Proof.
  induction l as [|a r IH]; intros m D F.
  - simpl. now rewrite app_nil_r.
  - inversion D as [|x y N D']; subst.
    unfold registry_of in *. simpl fold_left. simpl filter.
    destruct (keeps a) eqn:K.
    + rewrite set_fresh by (apply F; now left).
      rewrite IH; [simpl; now rewrite <- app_assoc|exact D'|].
      intros t I. rewrite map_app, in_app_iff. simpl. intros [H|[H|[]]].
      * apply (F t); [now right|exact H].
      * apply N. rewrite H. now apply in_map.
    + apply IH; [exact D'|]. intros t I. apply F. now right.
Qed.

(** X3: [initializeExtension], given tabs with distinct ids, leaves as
    registry and as snapshot the pairs (id, URL) of the tabs whose URL is
    neither empty nor [about:blank], in the order of the list; it loads
    the two settings from storage with their defaults; and it leaves the
    locks and the recorded navigation attempts as they were. *)
Theorem initializeExtension_result :
  forall (pinnedTabsList : list Tab) (e : Ext),
    NoDup (map id pinnedTabsList) ->
    pinnedTabs (exec (initializeExtension (Some pinnedTabsList)) e)
    = map (fun t => (id t, url t)) (filter keeps pinnedTabsList)
    /\ pinnedUrls (storage (exec (initializeExtension (Some pinnedTabsList)) e))
       = map (fun t => (id t, url t)) (filter keeps pinnedTabsList)
    /\ debugMode (exec (initializeExtension (Some pinnedTabsList)) e)
       = bool_or (stored_debugMode (storage e)) false
    /\ linkBehavior (exec (initializeExtension (Some pinnedTabsList)) e)
       = string_or (stored_linkBehavior (storage e)) "different-domains"
    /\ navigationLocks (exec (initializeExtension (Some pinnedTabsList)) e)
       = navigationLocks e
    /\ lastNavigationAttempts (exec (initializeExtension (Some pinnedTabsList)) e)
       = lastNavigationAttempts e.
Proof.
  intros l e D.
  destruct (initializeExtension_registry l e) as [R P].
  unfold persisted in P. rewrite P, R.
  rewrite (@registry_of_fresh l [] D) by (intros t _ []).
  repeat split; try reflexivity;
    unfold initializeExtension, savePinnedTabs; fields;
    rewrite for_of_registry; fields; reflexivity.
Qed.

Lemma initializeExtension_result_witness :
  pinnedUrls (storage (exec (initializeExtension
     (Some [tab7; mkTab 9 "about:blank" true 1; mkTab 4 item true 2])) AL))
  = [(7, inbox); (4, item)]
  /\ linkBehavior (exec (initializeExtension
       (Some [tab7; mkTab 9 "about:blank" true 1; mkTab 4 item true 2])) AL)
     = "different-domains".
Proof.
  destruct (@initializeExtension_result
              [tab7; mkTab 9 "about:blank" true 1; mkTab 4 item true 2] AL)
    as (_ & H2 & _ & H4 & _).
  - simpl. repeat constructor; simpl; intuition discriminate.
  - split; [exact H2 | exact H4].
Defined.

Lemma loadSettings_registry e :
  pinnedTabs (exec loadSettings e) = pinnedTabs e
  /\ pinnedUrls (storage (exec loadSettings e)) = pinnedUrls (storage e).
Proof. unfold loadSettings. fields. split; reflexivity. Qed.

Lemma onStorageChanged_registry changes area e :
  pinnedTabs (exec (onStorageChanged changes area) e) = pinnedTabs e
  /\ pinnedUrls (storage (exec (onStorageChanged changes area) e))
     = pinnedUrls (storage e).
Proof.
  unfold onStorageChanged.
  destruct (area =? "local")%string, (ch_debugMode changes),
    (ch_linkBehavior changes); fields; split; reflexivity.
Qed.

(** X4: once the stored snapshot is the list of the registry's entries, it
    stays so after every listener segment: a tab update, a tab removal, a
    start, a settings load or change, and each segment of the navigation
    interceptor. *)
Theorem snapshot_mirrors_registry :
  forall (URL_new : string -> option URL) (ev : Event) (s : Sys),
    persisted (ext s) -> persisted (ext (sys_step URL_new ev s)).
Proof.
  intros URL_new ev s P. unfold persisted in *.
  destruct ev as [d|n r now|k ci tab|k|l| |ch area]; unfold sys_step.
  - rewrite (run_pair (onBeforeNavigate d) (ext s)). simpl.
    destruct (onBeforeNavigate_frame d (ext s)) as (F1 & _ & F3 & _).
    now rewrite F1, F3.
  - destruct (nth_error (inflight s) n) as [p|]; [|exact P].
    rewrite (run_pair (resume URL_new p r now) (ext s)). simpl.
    destruct (resume_frame URL_new p r now (ext s)) as [F1 F3].
    now rewrite F1, F3.
  - simpl. now apply onUpdated_persisted.
  - simpl. destruct (JSMap.has Z.eqb k (pinnedTabs (ext s))) eqn:H.
    + now apply onRemoved_registered.
    + now rewrite onRemoved_unregistered.
  - simpl. destruct l as [l|].
    + apply initializeExtension_registry.
    + destruct (initializeExtension_rejected (ext s)) as [F1 F3].
      now rewrite F1, F3.
  - simpl. destruct (loadSettings_registry (ext s)) as [F1 F3].
    now rewrite F1, F3.
  - simpl. destruct (onStorageChanged_registry ch area (ext s)) as [F1 F3].
    now rewrite F1, F3.
Qed.

Lemma snapshot_mirrors_registry_witness :
  pinnedUrls (storage (ext (sys_step URL_parse (Removed 7)
                                     (mkSys started [] []))))
  = []
  /\ pinnedTabs (ext (sys_step URL_parse (Removed 7) (mkSys started [] []))) = [].
Proof.
  pose proof (@snapshot_mirrors_registry URL_parse (Removed 7)
                (mkSys started [] []) eq_refl) as H.
  split; [|reflexivity]. rewrite H. reflexivity.
Defined.

(** X5: when the URL of a pinned tab changes to something other than
    [about:blank], [onUpdated] makes the registry map the tab to its new
    URL, leaves every other entry alone, keeps the order of the entries
    when the tab was already registered, and stores the new snapshot. *)
Theorem onUpdated_url_change :
  forall (tabId : Z) (changeInfo : ChangeInfo) (tab : Tab) (e : Ext),
    ci_pinned changeInfo = None ->
    truthy_opt (ci_url changeInfo) = true ->
    pinned tab = true ->
    url tab <> "about:blank" ->
    JSMap.get Z.eqb tabId (pinnedTabs (exec (onUpdated tabId changeInfo tab) e))
    = Some (url tab)
    /\ (forall j, j <> tabId ->
          JSMap.get Z.eqb j (pinnedTabs (exec (onUpdated tabId changeInfo tab) e))
          = JSMap.get Z.eqb j (pinnedTabs e))
    /\ (JSMap.has Z.eqb tabId (pinnedTabs e) = true ->
        map fst (pinnedTabs (exec (onUpdated tabId changeInfo tab) e))
        = map fst (pinnedTabs e))
    /\ pinnedUrls (storage (exec (onUpdated tabId changeInfo tab) e))
       = JSMap.entries (pinnedTabs (exec (onUpdated tabId changeInfo tab) e)).
Proof.
  intros k ci tab e Hp Hu Ht Hb.
  assert (R : pinnedTabs (exec (onUpdated k ci tab) e)
              = JSMap.set Z.eqb k (url tab) (pinnedTabs e)).
  { rewrite onUpdated_registry. unfold url_branch, pin_branch.
    rewrite Hp, Hu, Ht. apply String.eqb_neq in Hb. now rewrite Hb. }
  rewrite R. split; [apply (JSMapFacts.get_set_same Z.eqb Z.eqb_eq)|].
  split; [intros j N; now apply (JSMapFacts.get_set_other Z.eqb Z.eqb_eq)|].
  split; [apply set_keys|].
  unfold onUpdated, savePinnedTabs. rewrite Hp, Hu, Ht.
  apply String.eqb_neq in Hb. rewrite Hb. simpl. fields. reflexivity.
Qed.

Lemma onUpdated_url_change_witness :
  JSMap.get Z.eqb 7
    (pinnedTabs (exec (onUpdated 7 (mkChangeInfo None (Some item))
                                 (mkTab 7 item true 0)) started))
  = Some item.
Proof.
  apply (@onUpdated_url_change 7 (mkChangeInfo None (Some item))
           (mkTab 7 item true 0) started); try reflexivity.
  intros H. discriminate H.
Defined.

(** X6: when a tab is unpinned, [onUpdated] deletes its registry entry,
    leaves every other entry alone and stores the new snapshot; the locks
    and the recorded navigation attempts, those of this tab included, are
    left as they were. *)
Theorem onUpdated_unpinned :
  forall (tabId : Z) (changeInfo : ChangeInfo) (tab : Tab) (e : Ext),
    ci_pinned changeInfo = Some false ->
    pinned tab = false ->
    pinnedTabs (exec (onUpdated tabId changeInfo tab) e)
    = JSMap.delete Z.eqb tabId (pinnedTabs e)
    /\ JSMap.get Z.eqb tabId (pinnedTabs (exec (onUpdated tabId changeInfo tab) e))
       = None
    /\ (forall j, j <> tabId ->
          JSMap.get Z.eqb j (pinnedTabs (exec (onUpdated tabId changeInfo tab) e))
          = JSMap.get Z.eqb j (pinnedTabs e))
    /\ pinnedUrls (storage (exec (onUpdated tabId changeInfo tab) e))
       = JSMap.entries (JSMap.delete Z.eqb tabId (pinnedTabs e))
    /\ navigationLocks (exec (onUpdated tabId changeInfo tab) e)
       = navigationLocks e
    /\ lastNavigationAttempts (exec (onUpdated tabId changeInfo tab) e)
       = lastNavigationAttempts e.
Proof.
  intros k ci tab e Hp Ht.
  assert (R : pinnedTabs (exec (onUpdated k ci tab) e)
              = JSMap.delete Z.eqb k (pinnedTabs e)).
  { rewrite onUpdated_registry. unfold url_branch, pin_branch.
    rewrite Hp, Ht. simpl. now rewrite andb_false_r. }
  rewrite R. split; [reflexivity|].
  split; [apply JSMapFacts.get_delete_same|].
  split; [intros j N; now apply (JSMapFacts.get_delete_other Z.eqb Z.eqb_eq)|].
  split; [|split; [apply onUpdated_navigationLocks|]];
    unfold onUpdated, savePinnedTabs; rewrite Hp, Ht; simpl;
    rewrite andb_false_r; simpl; fields; reflexivity.
Qed.

Lemma onUpdated_unpinned_witness :
  pinnedTabs unpinned = []
  /\ lastNavigationAttempts unpinned = lastNavigationAttempts diverted.
Proof.
  destruct (@onUpdated_unpinned 7 (mkChangeInfo (Some false) None)
              (mkTab 7 inbox false 0) diverted eq_refl eq_refl)
    as (H1 & _ & _ & _ & _ & H6).
  split; [exact H1 | exact H6].
Defined.

(** X7: for a tab that has a registry entry, [onRemoved] deletes the
    entry, the recorded navigation attempt and the lock of that tab, and
    stores the new snapshot; the entries, attempts and locks of every
    other tab stay. *)
Theorem onRemoved_registered_tab :
  forall (tabId : Z) (e : Ext),
    JSMap.has Z.eqb tabId (pinnedTabs e) = true ->
    JSMap.get Z.eqb tabId (pinnedTabs (exec (onRemoved tabId) e)) = None
    /\ JSMap.get Z.eqb tabId (lastNavigationAttempts (exec (onRemoved tabId) e))
       = None
    /\ unlocked (exec (onRemoved tabId) e) tabId
    /\ pinnedUrls (storage (exec (onRemoved tabId) e))
       = JSMap.entries (pinnedTabs (exec (onRemoved tabId) e))
    /\ forall j, j <> tabId ->
         JSMap.get Z.eqb j (pinnedTabs (exec (onRemoved tabId) e))
         = JSMap.get Z.eqb j (pinnedTabs e)
         /\ JSMap.get Z.eqb j (lastNavigationAttempts (exec (onRemoved tabId) e))
            = JSMap.get Z.eqb j (lastNavigationAttempts e)
         /\ JSMap.get String.eqb (lockKey j) (navigationLocks (exec (onRemoved tabId) e))
            = JSMap.get String.eqb (lockKey j) (navigationLocks e).
Proof.
  intros k e H.
  destruct (onRemoved_registered k e H) as (R & A & L & P).
  unfold unlocked. rewrite P, R, A, L.
  split; [apply JSMapFacts.get_delete_same|].
  split; [apply JSMapFacts.get_delete_same|].
  split; [apply JSMapFacts.get_delete_same|].
  split; [reflexivity|]. intros j N.
  split; [now apply (JSMapFacts.get_delete_other Z.eqb Z.eqb_eq)|].
  split; [now apply (JSMapFacts.get_delete_other Z.eqb Z.eqb_eq)|].
  now apply locked_delete_other.
Qed.

Lemma onRemoved_registered_tab_witness :
  JSMap.get Z.eqb 7 (lastNavigationAttempts (exec (onRemoved 7) diverted)) = None
  /\ pinnedUrls (storage (exec (onRemoved 7) diverted)) = [].
Proof.
  destruct (@onRemoved_registered_tab 7 diverted eq_refl) as (_ & H2 & _ & H4 & _).
  split; [exact H2|]. rewrite H4. reflexivity.
Defined.

(* ------------------------------------------------------------------ *)
(** ** More on the navigation interceptor *)

Lemma delete_set_fresh (m : JSMap.t string bool) k v :
  JSMap.get String.eqb k m = None ->
  JSMap.delete String.eqb k (JSMap.set String.eqb k v m) = m.
Proof.
  induction m as [|[k' v'] r IH]; simpl.
  - intros _. now rewrite String.eqb_refl.
  - destruct (String.eqb k k') eqn:E; [discriminate|].
    intros H. simpl. rewrite E. simpl. now rewrite (IH H).
Qed.

Lemma set_navigationLocks_id e : set_navigationLocks (navigationLocks e) e = e.
Proof. now destruct e. Qed.



Section InterceptorMore.
Variable URL_new : string -> option URL.


End InterceptorMore.

Section InterceptorProtocol.
Variable URL_new : string -> option URL.

Lemma shouldOpenInNewTab_debugMode c n e :
  debugMode (exec (shouldOpenInNewTab URL_new c n) e) = debugMode e.
Proof. apply shouldOpenInNewTab_same_but_log. Qed.

Lemma shouldOpenInNewTab_linkBehavior c n e :
  linkBehavior (exec (shouldOpenInNewTab URL_new c n) e) = linkBehavior e.
Proof. apply shouldOpenInNewTab_same_but_log. Qed.

Lemma shouldOpenInNewTab_stored_debugMode c n e :
  stored_debugMode (storage (exec (shouldOpenInNewTab URL_new c n) e))
  = stored_debugMode (storage e).
Proof. apply shouldOpenInNewTab_same_but_log. Qed.

Lemma shouldOpenInNewTab_stored_linkBehavior c n e :
  stored_linkBehavior (storage (exec (shouldOpenInNewTab URL_new c n) e))
  = stored_linkBehavior (storage e).
Proof. apply shouldOpenInNewTab_same_but_log. Qed.

Hint Rewrite shouldOpenInNewTab_pinnedTabs shouldOpenInNewTab_navigationLocks
  shouldOpenInNewTab_lastNavigationAttempts shouldOpenInNewTab_pinnedUrls
  shouldOpenInNewTab_debugMode shouldOpenInNewTab_linkBehavior
  shouldOpenInNewTab_stored_debugMode shouldOpenInNewTab_stored_linkBehavior : ext.

Ltac split_if :=
  match goal with
  | |- context [if ?c then _ else _] => destruct c eqn:?
  end.

Ltac segs :=
  unfold complete, fail; unfold leave; unfold release;
  repeat (fields; try split_if).


Lemma onBeforeNavigate_ignore d e :
  ~ locked e (d_tabId d) ->
  d_frameId d <> 0 \/ JSMap.has Z.eqb (d_tabId d) (pinnedTabs e) = false ->
  eval (onBeforeNavigate d) e = None
  /\ exec (onBeforeNavigate d) e
     = set_navigationLocks
         (JSMap.delete String.eqb (lockKey (d_tabId d))
            (JSMap.set String.eqb (lockKey (d_tabId d)) true (navigationLocks e)))
         e.
Proof.
  unfold locked, onBeforeNavigate. intros L C. fields.
  assert (Q : negb (d_frameId d =? 0)
              || negb (JSMap.has Z.eqb (d_tabId d) (pinnedTabs e)) = true).
  { destruct C as [C|C].
    - apply Z.eqb_neq in C. now rewrite C.
    - rewrite C. apply orb_true_r. }
  destruct (JSMap.get String.eqb (lockKey (d_tabId d)) (navigationLocks e))
    as [[|]|]; [contradiction| | ]; fields; rewrite Q; unfold leave, release;
    fields; auto.
Qed.

Lemma onBeforeNavigate_some d e p :
  eval (onBeforeNavigate d) e = Some p ->
  p = mkProc d AwaitGet /\ d_frameId d = 0
  /\ JSMap.has Z.eqb (d_tabId d) (pinnedTabs e) = true
  /\ ~ locked e (d_tabId d).
Proof.
  unfold locked, onBeforeNavigate. fields.
  destruct (JSMap.get String.eqb (lockKey (d_tabId d)) (navigationLocks e))
    as [[|]|]; fields; try discriminate;
    (destruct (d_frameId d =? 0) eqn:F;
     [apply Z.eqb_eq in F|simpl; unfold leave, release; fields; discriminate]);
    (destruct (JSMap.has Z.eqb (d_tabId d) (pinnedTabs e));
     [|simpl; unfold leave, release; fields; discriminate]);
    simpl; fields; intros [= <-]; repeat split; auto; discriminate.
Qed.

Lemma resume_step p r now e p' :
  eval (resume URL_new p r now) e = Some p' ->
  details p' = details p /\ remaining p = S (remaining p').
Proof.
  destruct p as [d c]. unfold resume.
  destruct r as [v|]; [|segs; discriminate].
  destruct c; try destruct v as [tab'|]; segs;
    try discriminate; intros [= <-]; split; reflexivity.
Qed.




Lemma resume_settings p r now e :
  debugMode (exec (resume URL_new p r now) e) = debugMode e
  /\ linkBehavior (exec (resume URL_new p r now) e) = linkBehavior e
  /\ stored_debugMode (storage (exec (resume URL_new p r now) e))
     = stored_debugMode (storage e)
  /\ stored_linkBehavior (storage (exec (resume URL_new p r now) e))
     = stored_linkBehavior (storage e).
Proof.
  destruct p as [d c]. unfold resume.
  destruct r as [v|]; [|segs; auto].
  destruct c; try destruct v as [tab'|]; segs; fields; auto.
Qed.

Lemma onBeforeNavigate_settings d e :
  debugMode (exec (onBeforeNavigate d) e) = debugMode e
  /\ linkBehavior (exec (onBeforeNavigate d) e) = linkBehavior e
  /\ stored_debugMode (storage (exec (onBeforeNavigate d) e))
     = stored_debugMode (storage e)
  /\ stored_linkBehavior (storage (exec (onBeforeNavigate d) e))
     = stored_linkBehavior (storage e).
Proof.
  unfold onBeforeNavigate. fields.
  destruct (JSMap.get String.eqb (lockKey (d_tabId d)) (navigationLocks e))
    as [[|]|]; segs; auto.
Qed.
End InterceptorProtocol.

Section InterceptorRuns.
Variable URL_new : string -> option URL.

Lemma run_frame script : forall p e,
  pinnedTabs (exec (run URL_new p script) e) = pinnedTabs e
  /\ pinnedUrls (storage (exec (run URL_new p script) e)) = pinnedUrls (storage e)
  /\ debugMode (exec (run URL_new p script) e) = debugMode e
  /\ linkBehavior (exec (run URL_new p script) e) = linkBehavior e
  /\ stored_debugMode (storage (exec (run URL_new p script) e))
     = stored_debugMode (storage e)
  /\ stored_linkBehavior (storage (exec (run URL_new p script) e))
     = stored_linkBehavior (storage e).
Proof.
  induction script as [|[r now] rest IH]; intros [p|] e;
    try (rewrite exec_run_done; repeat split; reflexivity).
  - unfold exec. rewrite run_waiting. repeat split; reflexivity.
  - rewrite exec_run_answer.
    destruct (IH (eval (resume URL_new p r now) e)
                 (exec (resume URL_new p r now) e)) as (A1 & A2 & A3 & A4 & A5 & A6).
    destruct (resume_frame URL_new p r now e) as [B1 B2].
    destruct (resume_settings URL_new p r now e) as (B3 & B4 & B5 & B6).
    rewrite A1, A2, A3, A4, A5, A6. repeat split; assumption.
Qed.

Lemma run_requests script : forall p e q,
  In q (fst (eval (run URL_new (Some p) script) e)) ->
  exists p', details p' = details p /\ q = awaited p'.
Proof.
  induction script as [|[r now] rest IH]; intros p e q.
  - unfold eval. rewrite run_waiting. simpl. intros [<-|[]]. now exists p.
  - rewrite eval_run_answer. simpl. intros [<-|I]; [now exists p|].
    destruct (eval (resume URL_new p r now) e) as [p'|] eqn:R.
    + destruct (resume_step URL_new p r now e R) as [D _].
      destruct (IH p' _ q I) as [p'' [D' Q]]. exists p''. split; congruence.
    + rewrite eval_run_done in I. destruct I.
Qed.

Lemma run_budget script : forall p e,
  (List.length (filter is_create (fst (eval (run URL_new (Some p) script) e)))
   <= creates_left p)%nat
  /\ (List.length (filter is_update (fst (eval (run URL_new (Some p) script) e)))
      <= updates_left p)%nat
  /\ (List.length (fst (eval (run URL_new (Some p) script) e)) <= remaining p)%nat.
Proof.
  induction script as [|[r now] rest IH]; intros p e.
  - unfold eval. rewrite run_waiting.
    destruct p as [d []]; unfold creates_left, updates_left, remaining, awaited;
      simpl; repeat split; lia.
  - rewrite eval_run_answer. cbn [fst].
    destruct (eval (resume URL_new p r now) e) as [p'|] eqn:R.
    + destruct (resume_step URL_new p r now e R) as [_ S].
      destruct (IH p' (exec (resume URL_new p r now) e)) as (C & U & T).
      destruct p as [d c], p' as [d' c']. unfold remaining in S. simpl in S.
      destruct c, c'; try discriminate S;
        unfold creates_left, updates_left, remaining, awaited in *;
        simpl in *; repeat split; lia.
    + rewrite eval_run_done.
      destruct p as [d []]; unfold creates_left, updates_left, remaining, awaited;
      simpl; repeat split; lia.
Qed.

End InterceptorRuns.



(** X8: a navigation event of a sub-frame, or of a tab that is not in the
    registry, makes the interceptor ask the host for nothing; when the
    lock of the tab was not in the lock map, the whole state is left as
    it was. *)
Theorem intercept_ignores :
  forall (URL_new : string -> option URL) (d : Details)
         (script : list (Response * Z)) (e : Ext),
    d_frameId d <> 0 \/ JSMap.has Z.eqb (d_tabId d) (pinnedTabs e) = false ->
    eval (intercept URL_new d script) e = ([], None)
    /\ (JSMap.get String.eqb (lockKey (d_tabId d)) (navigationLocks e) = None ->
        exec (intercept URL_new d script) e = e).
Proof.
  intros URL_new d script e C. rewrite eval_intercept, exec_intercept.
  destruct (JSMap.get String.eqb (lockKey (d_tabId d)) (navigationLocks e))
    as [[|]|] eqn:G.
  - pose proof (@onBeforeNavigate_locked d e G) as O.
    unfold eval at 2, exec at 1 3. rewrite O. cbn [fst snd].
    rewrite eval_run_done. split; [reflexivity|discriminate].
  - destruct (@onBeforeNavigate_ignore d e) as [E X]; auto.
    { unfold locked. rewrite G. discriminate. }
    rewrite E, eval_run_done. split; [reflexivity|discriminate].
  - destruct (@onBeforeNavigate_ignore d e) as [E X]; auto.
    { unfold locked. rewrite G. discriminate. }
    rewrite E, eval_run_done, exec_run_done. split; [reflexivity|].
    intros _. rewrite X, delete_set_fresh by exact G.
    apply set_navigationLocks_id.
Qed.

Lemma intercept_ignores_witness :
  intercept URL_parse (mkDetails 7 item 3) click_script started
  = ([], None, started).
Proof.
  destruct (@intercept_ignores URL_parse (mkDetails 7 item 3) click_script
              started) as [H1 H2].
  - left. simpl. discriminate.
  - rewrite (run_pair (intercept URL_parse (mkDetails 7 item 3) click_script)
                      started).
    rewrite H1, H2; reflexivity.
Defined.

(** X10: whatever the host answers, one invocation of the interceptor
    asks for at most one new tab and at most two reloads of the pinned
    tab, and makes at most six calls in all; every call is about the tab
    of the event, the new tab opens the target of the event, every reload
    replaces the history entry, and the only delays are 100 and 50 ms. *)
Theorem intercept_bounded :
  forall (URL_new : string -> option URL) (d : Details)
         (script : list (Response * Z)) (e : Ext),
    (List.length (filter is_create (fst (eval (intercept URL_new d script) e)))
     <= 1)%nat
    /\ (List.length (filter is_update (fst (eval (intercept URL_new d script) e)))
        <= 2)%nat
    /\ (List.length (fst (eval (intercept URL_new d script) e)) <= 6)%nat
    /\ Forall (addressed d) (fst (eval (intercept URL_new d script) e)).
Proof.
  intros URL_new d script e. rewrite eval_intercept.
  destruct (eval (onBeforeNavigate d) e) as [p|] eqn:O.
  - destruct (onBeforeNavigate_some d e O) as [-> _].
    destruct (run_budget URL_new script (mkProc d AwaitGet)
                (exec (onBeforeNavigate d) e)) as (C & U & T).
    repeat split; try assumption.
    apply Forall_forall. intros q I.
    destruct (run_requests URL_new script _ _ q I) as [p' [D ->]].
    simpl in D. destruct p' as [d' c]. simpl in D. subst d'.
    destruct c; simpl; auto.
  - rewrite eval_run_done. simpl. repeat split; auto with arith.
Qed.



(** X12: whatever the host answers, an invocation of the interceptor
    leaves the registry, the stored snapshot and the settings, in memory
    and in storage, as they were. *)
Theorem intercept_frame :
  forall (URL_new : string -> option URL) (d : Details)
         (script : list (Response * Z)) (e : Ext),
    pinnedTabs (exec (intercept URL_new d script) e) = pinnedTabs e
    /\ pinnedUrls (storage (exec (intercept URL_new d script) e))
       = pinnedUrls (storage e)
    /\ debugMode (exec (intercept URL_new d script) e) = debugMode e
    /\ linkBehavior (exec (intercept URL_new d script) e) = linkBehavior e
    /\ stored_debugMode (storage (exec (intercept URL_new d script) e))
       = stored_debugMode (storage e)
    /\ stored_linkBehavior (storage (exec (intercept URL_new d script) e))
       = stored_linkBehavior (storage e).
Proof.
  intros URL_new d script e. rewrite exec_intercept.
  destruct (run_frame URL_new script (eval (onBeforeNavigate d) e)
              (exec (onBeforeNavigate d) e)) as (A1 & A2 & A3 & A4 & A5 & A6).
  destruct (onBeforeNavigate_frame d e) as (B1 & _ & B2 & _).
  destruct (onBeforeNavigate_settings d e) as (B3 & B4 & B5 & B6).
  rewrite A1, A2, A3, A4, A5, A6. repeat split; assumption.
Qed.

(** X15: a segment of the interceptor that runs for one tab leaves the
    lock of every other tab as it was: it neither takes nor releases
    it. *)
Theorem other_locks_untouched :
  forall (URL_new : string -> option URL) (b : Z),
    (forall d e,
       d_tabId d <> b ->
       JSMap.get String.eqb (lockKey b)
         (navigationLocks (exec (onBeforeNavigate d) e))
       = JSMap.get String.eqb (lockKey b) (navigationLocks e))
    /\ (forall p r now e,
          d_tabId (details p) <> b ->
          JSMap.get String.eqb (lockKey b)
            (navigationLocks (exec (resume URL_new p r now) e))
          = JSMap.get String.eqb (lockKey b) (navigationLocks e)).
Proof.
  intros URL_new b. split.
  - intros d e N.
    assert (K : lockKey b <> lockKey (d_tabId d))
      by (intros E; apply N; symmetry; now apply lockKey_inj).
    destruct (JSMap.get String.eqb (lockKey (d_tabId d)) (navigationLocks e))
      as [[|]|] eqn:G.
    + pose proof (@onBeforeNavigate_locked d e G) as O.
      unfold exec at 1. rewrite O. cbn [snd].
      now rewrite debugLog_navigationLocks.
    + assert (NL : ~ locked e (d_tabId d))
        by (unfold locked; rewrite G; discriminate).
      destruct (onBeforeNavigate_free d NL) as [[_ Lk]|[_ Lk]]; rewrite Lk;
        rewrite ?(JSMapFacts.get_delete_other String.eqb String.eqb_eq) by exact K;
        now rewrite (JSMapFacts.get_set_other String.eqb String.eqb_eq) by exact K.
    + assert (NL : ~ locked e (d_tabId d))
        by (unfold locked; rewrite G; discriminate).
      destruct (onBeforeNavigate_free d NL) as [[_ Lk]|[_ Lk]]; rewrite Lk;
        rewrite ?(JSMapFacts.get_delete_other String.eqb String.eqb_eq) by exact K;
        now rewrite (JSMapFacts.get_set_other String.eqb String.eqb_eq) by exact K.
  - intros p r now e N.
    pose proof (resume_locks URL_new p r now e) as RL.
    destruct (eval (resume URL_new p r now) e) as [p'|].
    + destruct RL as (_ & _ & Lk). now rewrite Lk.
    + rewrite RL. apply locked_delete_other. congruence.
Qed.

Lemma other_locks_untouched_witness :
  locked (exec (resume URL_parse (mkProc (mkDetails 4 item 0) AwaitGet)
                       Rejected 5000) suspended) 7.
Proof.
  unfold locked.
  rewrite (proj2 (other_locks_untouched URL_parse 7)
             (mkProc (mkDetails 4 item 0) AwaitGet) Rejected 5000 suspended).
  - reflexivity.
  - simpl. discriminate.
Defined.

Section Diversion.
Variable URL_new : string -> option URL.






End Diversion.






Section Echo.
Variable URL_new : string -> option URL.


End Echo.



(* ------------------------------------------------------------------ *)
(** ** The settings page and the background script *)

(** X17: the settings in memory follow the stored ones.  After the load
    at the top of the script and after [initializeExtension] (also when
    the tab query is rejected) they are the stored settings with their
    defaults; and they stay so when the settings page writes the debug
    checkbox, or a non-empty link behaviour, and the change event reaches
    the background script, which then holds exactly the value written. *)
Theorem settings_follow_storage :
  (forall e, settings_synced (exec loadSettings e))
  /\ (forall l e, settings_synced (exec (initializeExtension l) e))
  /\ (forall checked e,
        settings_synced e ->
        settings_synced (page_sets_debugMode checked e)
        /\ debugMode (page_sets_debugMode checked e) = checked)
  /\ (forall value e,
        settings_synced e -> value <> "" ->
        settings_synced (page_sets_linkBehavior value e)
        /\ linkBehavior (page_sets_linkBehavior value e) = value).
Proof.
  unfold settings_synced. split; [|split; [|split]].
  - intros e. unfold loadSettings. fields. destruct (stored_debugMode (storage e)) as [[|]|];
      split; reflexivity.
  - intros [l|] e; unfold initializeExtension, savePinnedTabs; fields;
      [rewrite for_of_registry; fields|];
      destruct (stored_debugMode (storage e)) as [[|]|]; split; reflexivity.
  - intros checked e [D L]. unfold page_sets_debugMode, onStorageChanged,
      updateDebugMode. simpl. fields.
    destruct checked; simpl; auto.
  - intros value e [D L] N. unfold page_sets_linkBehavior, onStorageChanged,
      updateLinkBehavior. simpl. fields.
    unfold store_linkBehavior, string_or, truthy. simpl.
    apply String.eqb_neq in N. rewrite N. simpl. auto.
Qed.

Lemma settings_follow_storage_witness :
  linkBehavior (page_sets_linkBehavior "all-links" started) = "all-links"
  /\ stored_linkBehavior (storage (page_sets_linkBehavior "all-links" started))
     = Some "all-links".
Proof.
  destruct settings_follow_storage as (_ & Init & _ & Page).
  destruct (Page "all-links" started) as [_ H].
  - apply Init.
  - intros Q. discriminate Q.
  - split; [exact H | reflexivity].
Defined.

(** X18: the radio button the settings page shows as checked and the
    behaviour of the background script.  When the stored link behaviour
    is missing, empty, ['different-domains'] or ['all-links'], the page
    checks "all links" exactly when the background script diverts every
    differing URL.  For any other stored value the page checks "all
    links" while the background script compares domains. *)
Theorem radio_and_behaviour :
  forall (e : Ext),
    settings_synced e ->
    (stored_linkBehavior (storage e) = None
     \/ stored_linkBehavior (storage e) = Some ""
     \/ stored_linkBehavior (storage e) = Some "different-domains"
     \/ stored_linkBehavior (storage e) = Some "all-links" ->
     (checked_radio (storage e) = allLinks <-> linkBehavior e = "all-links"))
    /\ (forall v,
          stored_linkBehavior (storage e) = Some v ->
          v <> "" -> v <> "different-domains" -> v <> "all-links" ->
          checked_radio (storage e) = allLinks
          /\ forall URL_new cur new,
               eval (shouldOpenInNewTab URL_new cur new) e
               = negb (cur =? new)%string
                 && eval (isDifferentDomain URL_new cur new) e).
Proof.
  intros e [_ L]. unfold checked_radio. split.
  - intros [H|[H|[H|H]]]; rewrite L, H; simpl; split; intros Q; discriminate Q
      || reflexivity.
  - intros v H N1 N2 N3. rewrite H. unfold string_or, truthy.
    apply String.eqb_neq in N1, N2. rewrite N1. simpl. rewrite N2.
    split; [reflexivity|]. intros URL_new cur new.
    unfold eval, shouldOpenInNewTab. destruct (cur =? new)%string; [reflexivity|].
    unfold bind, gets. rewrite L, H. unfold string_or, truthy. rewrite N1. simpl.
    apply String.eqb_neq in N3. rewrite N3. reflexivity.
Qed.

Lemma radio_and_behaviour_witness :
  checked_radio (storage (page_sets_linkBehavior "everything" started)) = allLinks
  /\ eval (shouldOpenInNewTab URL_parse "https://a.example.com/x"
                              "https://a.example.com/y")
          (page_sets_linkBehavior "everything" started) = false.
Proof.
  assert (S : settings_synced (page_sets_linkBehavior "everything" started))
    by (split; reflexivity).
  destruct (proj2 (radio_and_behaviour S) "everything") as [R B];
    try reflexivity; try (intros Q; discriminate Q).
  split; [exact R|]. rewrite B. reflexivity.
Defined.
